(** * IC50 determination notebook: synthetic data, model declaration, inference

    A shallow embedding of [incubator/IC50_synthetic-bayesian.ipynb].
    The notebook is a linear script over numpy arrays, a pandas frame and a
    PyMC3 model.  Integers of the script are [Z], floating-point arrays are
    lists of mathematical reals, the frame is a list of typed rows, raised
    exceptions are an [Error] result carrying the exception class name, and
    the PyMC3 model is the symbolic object the [with pm.Model()] block builds
    (named random variables over a small tensor-expression language) together
    with its denotation over the reals.  Where overflow matters, the
    response of one observation is also given on binary64 numbers. *)

From Stdlib Require Import Floats.
From Stdlib Require Import String ZArith List Bool Reals.
From Stdlib Require Import Lia Lra Permutation Sorted.
Import ListNotations.

Open Scope string_scope.

(** ** Results of fallible steps *)

Inductive result (A : Type) : Type :=
| Ok (a : A)
| Error (exc : string).

Arguments Ok {A} a.
Arguments Error {A} exc.

Definition bind {A B} (r : result A) (k : A -> result B) : result B :=
  match r with
  | Ok a => k a
  | Error e => Error e
  end.

Notation "x <- r ;; k" := (bind r (fun x => k))
  (at level 61, r at next level, right associativity).

(** ** numpy *)

Module np.

(** [np.arange(start, stop, step)] on integers; the notebook only uses
    positive steps.  The length is [ceil((stop - start) / step)].  numpy
    computes in 64-bit integers: the definition stands for arguments of
    that range, as the notebook's are. *)
Definition arange (start stop step : Z) : list Z :=
  map (fun i => (start + Z.of_nat i * step)%Z)
      (seq 0 (Z.to_nat (- ((start - stop) / step)))).

(** [np.concatenate(blocks)] along the first axis. *)
Definition concatenate {A} (blocks : list (list A)) : list A := concat blocks.

(** A two-dimensional array, row-major, with its shape kept explicitly
    (numpy keeps the column count of an array without rows). *)
Record ndarray2 := {
  nrows : nat;
  ncols : nat;
  item : nat -> nat -> R
}.

(** Broadcasting a column [(n,1)] against a row [(1,k)] with a binary
    operation gives the [(n,k)] array of all pairs. *)
Definition outer (f : Z -> Z -> R) (col row : list Z) : ndarray2 :=
  {| nrows := length col;
     ncols := length row;
     item := fun j g => f (nth j col 0%Z) (nth g row 0%Z) |}.

(** Elementwise sum of two arrays of the same shape. *)
Definition add (a b : ndarray2) : ndarray2 :=
  {| nrows := nrows a;
     ncols := ncols a;
     item := fun j g => (item a j g + item b j g)%R |}.

(** [a.flatten(order="F")]: column-major, the first index changes fastest. *)
Definition flatten_F (a : ndarray2) : list R :=
  flat_map (fun g => map (fun j => item a j g) (seq 0 (nrows a)))
           (seq 0 (ncols a)).

(** [np.random.normal(loc, scale, size=(n, k))].  The generator's stream of
    standard normal variates is the oracle [z]; numpy returns
    [loc + scale * z] entrywise. *)
Definition random_normal (z : nat -> nat -> R) (loc scale : R)
           (size : nat * nat) : ndarray2 :=
  {| nrows := fst size;
     ncols := snd size;
     item := fun j g => (loc + scale * z j g)%R |}.

Definition shape (a : ndarray2) : nat * nat := (nrows a, ncols a).

End np.

(** ** The frame *)

(** A row of [data] before label encoding. *)
Record Row := {
  concentrations : R;
  measurements : R;
  drug : Z
}.

(** A row of [data] once the [idxs] column has been added. *)
Record IRow := {
  row : Row;
  idxs : Z
}.

Module pd.

(** Assigning three columns to an empty frame: the first one fixes the
    index, the others must have its length or pandas raises ValueError.
    While the frame still has no rows pandas instead takes the index of the
    first column that has some and fills the earlier ones with NaN; that
    case has no counterpart here and lies outside the use made of the
    function, whose first column is empty only when all three are. *)
Fixpoint from_columns (cs ms : list R) (ds : list Z) : result (list Row) :=
  match cs, ms, ds with
  | [], [], [] => Ok []
  | c :: cs', m :: ms', d :: ds' =>
      rest <- from_columns cs' ms' ds' ;;
      Ok ({| concentrations := c; measurements := m; drug := d |} :: rest)
  | _, _, _ => Error "ValueError"
  end.

End pd.

(** ** Synthetic data generator (cells 2 to 6) *)

Module Generator.

Definition x_concs : list Z :=
  np.concatenate
    [ np.arange 0 100 10;
      np.arange 5 21 1;
      np.arange 40 51 1;
      np.arange 85 96 1 ].

Definition ic50_true : list Z := [42; 13; 88]%Z.
Definition beta_true : Z := 1.

(** The standard deviation literal [0.15]. *)
Definition noise_sd : R := 15 / 100.

Section Synthetic.

(** The generator as a function of its inputs: the concentration grid,
    the true IC50 of every drug, the shared amplitude and the random
    stream. *)
Variables (grid ic50s : list Z) (beta : Z) (z : nat -> nat -> R).

(** [beta_true / (1 + np.exp(x_concs - ic50_true))] for one pair. *)
Definition response (c t : Z) : R :=
  IZR beta / (1 + exp (IZR (c - t))).

(** [y_true = beta_true / (1 + np.exp(x_concs - ic50_true))] *)
Definition y_true : np.ndarray2 := np.outer response grid ic50s.

(** [y_noisy = y_true + np.random.normal(0, 0.15, size=y_true.shape)] *)
Definition y_noisy : np.ndarray2 :=
  np.add y_true (np.random_normal z 0 noise_sd (np.shape y_true)).

(** [concentrations = np.concatenate([x_concs] * ic50_true.shape[1])] *)
Definition concentrations_col : list Z :=
  np.concatenate (repeat grid (length ic50s)).

(** [for i in range(ic50_true.shape[1]):
       drugs.extend([i] * x_concs.shape[0])] *)
Definition drugs : list Z :=
  flat_map (fun i => repeat (Z.of_nat i) (length grid))
           (seq 0 (length ic50s)).

(** The frame assembled in cell 6; [pm.floatX] turns the integer
    columns into floating point without changing their values. *)
Definition data : result (list Row) :=
  pd.from_columns (map IZR concentrations_col)
                  (np.flatten_F y_noisy)
                  drugs.

End Synthetic.

End Generator.

(** ** Label encoding (cell 6) *)

Module sklearn.

(** Insertion into a sorted list without duplicates. *)
Fixpoint insert (x : Z) (l : list Z) : list Z :=
  match l with
  | [] => [x]
  | y :: l' =>
      if (x <? y)%Z then x :: l
      else if (x =? y)%Z then l
      else y :: insert x l'
  end.

(** [np.unique(y)]: the sorted distinct labels, the encoder's [classes_]. *)
Definition unique (y : list Z) : list Z := fold_right insert [] y.

(** Position of a label among the classes. *)
Fixpoint index_of (x : Z) (classes : list Z) : Z :=
  match classes with
  | [] => 0
  | c :: cs => if (x =? c)%Z then 0 else 1 + index_of x cs
  end.

(** [LabelEncoder().fit_transform(y)] *)
Definition fit_transform (y : list Z) : list Z :=
  let classes_ := unique y in
  map (fun v => index_of v classes_) y.

End sklearn.

(** [.astype("int32")]: two's complement wrap-around on 32 bits. *)
Definition astype_int32 (v : Z) : Z :=
  ((v + 2 ^ 31) mod 2 ^ 32 - 2 ^ 31)%Z.

(** [data["idxs"] = le.fit_transform(data["drug"]).astype("int32")] *)
Definition add_idxs (data : list Row) : list IRow :=
  map (fun ri => {| row := fst ri; idxs := snd ri |})
      (combine data (map astype_int32 (sklearn.fit_transform (map drug data)))).

(** The observations of drug [d] in a frame. *)
Definition drug_group (d : Z) (data : list Row) : list Row :=
  filter (fun r => (drug r =? d)%Z) data.

(** The columns [data["concentrations"].values], [data["measurements"]]
    and [data["idxs"].values]. *)
Definition col_concentrations (data : list IRow) : list R :=
  map (fun r => concentrations (row r)) data.
Definition col_measurements (data : list IRow) : list R :=
  map (fun r => measurements (row r)) data.
Definition col_idxs (data : list IRow) : list Z := map idxs data.

(** ** Model declaration (cell 8) *)

Module pm.

(** Symbolic tensors built inside the [with pm.Model()] block. *)
Inductive tensor : Type :=
| Int (v : Z)
| Array (v : list R)
| RV (name : string)
| Take (x : tensor) (ix : list Z)
| Add (a b : tensor)
| Sub (a b : tensor)
| Div (a b : tensor)
| Exp (a : tensor).

Inductive distribution : Type :=
| Normal (mu sd : tensor)
| HalfCauchy (beta : tensor).

(** [pm.Normal(name, mu=0, sd=...)]: PyMC3's default for an omitted [mu]. *)
Definition Normal_default_mu : tensor := Int 0.

Record FreeRV := {
  name : string;
  prior : distribution;
  shape : nat
}.

Record ObservedRV := {
  oname : string;
  likelihood : distribution;
  observed : list R
}.

Record Model := {
  free_RVs : list FreeRV;
  deterministics : list (string * tensor);
  observed_RVs : list ObservedRV
}.

(** numpy's rule for an integer index into an axis of length [n]:
    [-n <= i < n], negative indices counting from the end. *)
Definition valid_index (n : nat) (i : Z) : bool :=
  ((- Z.of_nat n <=? i) && (i <? Z.of_nat n))%Z.

Definition normalize_index (n : nat) (i : Z) : nat :=
  Z.to_nat (if (i <? 0)%Z then Z.of_nat n + i else i).

Fixpoint lookup_shape (nm : string) (rvs : list FreeRV) : option nat :=
  match rvs with
  | [] => None
  | rv :: rest => if String.eqb nm (name rv) then Some (shape rv)
                  else lookup_shape nm rest
  end.

(** Combining the shapes of two operands ([None] is a scalar). *)
Definition broadcast (a b : option nat) : result (option nat) :=
  match a, b with
  | None, s | s, None => Ok s
  | Some n, Some m => if Nat.eqb n m then Ok (Some n) else Error "ValueError"
  end.

(** The model context computes a test value for every node as it is
    built, so an index out of range or a shape mismatch is raised by the
    declaration itself.  [check] follows that computation on shapes. *)
Fixpoint check (rvs : list FreeRV) (t : tensor) : result (option nat) :=
  match t with
  | Int _ => Ok None
  | Array v => Ok (Some (length v))
  | RV nm => match lookup_shape nm rvs with
             | Some n => Ok (Some n)
             | None => Error "NameError"
             end
  | Take x ix =>
      s <- check rvs x ;;
      match s with
      | Some n => if forallb (valid_index n) ix then Ok (Some (length ix))
                  else Error "IndexError"
      | None => Error "IndexError"
      end
  | Add a b | Sub a b | Div a b =>
      sa <- check rvs a ;;
      sb <- check rvs b ;;
      broadcast sa sb
  | Exp a => check rvs a
  end.

(** The [with pm.Model() as model:] block, statement by statement. *)

(** [datasize = len(set(data["idxs"]))] *)
Definition datasize (data : list IRow) : nat :=
  length (nodup Z.eq_dec (col_idxs data)).

(** [beta = pm.Normal("beta", mu=0, sd=100 ** 2, shape=datasize)] *)
Definition beta (data : list IRow) : FreeRV :=
  {| name := "beta"; prior := Normal (Int 0) (Int (100 ^ 2));
     shape := datasize data |}.

(** [noise = pm.HalfCauchy("noise", beta=100 ** 2, shape=datasize)] *)
Definition noise (data : list IRow) : FreeRV :=
  {| name := "noise"; prior := HalfCauchy (Int (100 ^ 2));
     shape := datasize data |}.

(** [ic50 = pm.Normal("IC50", sd=100 ** 2, shape=datasize)] *)
Definition ic50 (data : list IRow) : FreeRV :=
  {| name := "IC50"; prior := Normal Normal_default_mu (Int (100 ^ 2));
     shape := datasize data |}.

(** [beta[idxs] / (1 + tt.exp(concentrations - ic50[idxs]))], the
    expression given to [pm.Deterministic("measurements", ...)]. *)
Definition measurements (data : list IRow) : tensor :=
  Div (Take (RV "beta") (col_idxs data))
      (Add (Int 1)
           (Exp (Sub (Array (col_concentrations data))
                     (Take (RV "IC50") (col_idxs data))))).

(** [noise[data["idxs"].values]], the [sd] argument of [y_like]. *)
Definition y_like_sd (data : list IRow) : tensor :=
  Take (RV "noise") (col_idxs data).

(** [y_like = pm.Normal("y_like", mu=measurements, sd=..., observed=...)] *)
Definition y_like (data : list IRow) : ObservedRV :=
  {| oname := "y_like";
     likelihood := Normal (measurements data) (y_like_sd data);
     observed := col_measurements data |}.

Definition declared (data : list IRow) : Model :=
  {| free_RVs := [beta data; noise data; ic50 data];
     deterministics := [("measurements", measurements data)];
     observed_RVs := [y_like data] |}.

(** Creating a distribution: PyMC3 refuses a variable without components
    ("Distribution initialized with invalid shape 0"). *)
Definition register (rv : FreeRV) : result FreeRV :=
  if Nat.eqb (shape rv) 0 then Error "ValueError" else Ok rv.

Definition model (data : list IRow) : result Model :=
  beta_rv <- register (beta data) ;;
  noise_rv <- register (noise data) ;;
  ic50_rv <- register (ic50 data) ;;
  let rvs := [beta_rv; noise_rv; ic50_rv] in
  _ <- check rvs (measurements data) ;;
  _ <- check rvs (y_like_sd data) ;;
  Ok (declared data).

(** *** Denotation over the reals *)

Inductive value : Type :=
| Scalar (r : R)
| Vector (v : list R).

(** A point of the parameter space: the value of every free variable. *)
Definition point := string -> list R.

(** [v[i]] for one valid integer index. *)
Definition index (v : list R) (i : Z) : R :=
  nth (normalize_index (length v) i) v 0%R.

(** [v[ix]] for an integer index array. *)
Definition take (v : list R) (ix : list Z) : result (list R) :=
  if forallb (valid_index (length v)) ix
  then Ok (map (index v) ix)
  else Error "IndexError".

Definition lift2 (f : R -> R -> R) (a b : value) : result value :=
  match a, b with
  | Scalar x, Scalar y => Ok (Scalar (f x y))
  | Scalar x, Vector v => Ok (Vector (map (f x) v))
  | Vector u, Scalar y => Ok (Vector (map (fun x => f x y) u))
  | Vector u, Vector v =>
      if Nat.eqb (length u) (length v)
      then Ok (Vector (map (fun xy => f (fst xy) (snd xy)) (combine u v)))
      else Error "ValueError"
  end.

Fixpoint eval (p : point) (t : tensor) : result value :=
  match t with
  | Int v => Ok (Scalar (IZR v))
  | Array v => Ok (Vector v)
  | RV nm => Ok (Vector (p nm))
  | Take x ix =>
      v <- eval p x ;;
      match v with
      | Vector l => r <- take l ix ;; Ok (Vector r)
      | Scalar _ => Error "IndexError"
      end
  | Add a b => x <- eval p a ;; y <- eval p b ;; lift2 Rplus x y
  | Sub a b => x <- eval p a ;; y <- eval p b ;; lift2 Rminus x y
  | Div a b => x <- eval p a ;; y <- eval p b ;; lift2 Rdiv x y
  | Exp a =>
      x <- eval p a ;;
      match x with
      | Scalar r => Ok (Scalar (exp r))
      | Vector l => Ok (Vector (map exp l))
      end
  end.

(** Densities of the two distribution families; PyMC3 bounds the
    log-density to minus infinity (density zero) outside the conditions
    [sd > 0], [beta > 0] and [value >= 0]. *)
Definition normal_pdf (mu sd x : R) : R :=
  if Rlt_dec 0 sd
  then / (sd * sqrt (2 * PI)) * exp (- ((x - mu) ^ 2) / (2 * sd ^ 2))
  else 0.

Definition halfcauchy_pdf (beta x : R) : R :=
  if Rlt_dec 0 beta
  then if Rle_dec 0 x then 2 / (PI * beta * (1 + (x / beta) ^ 2)) else 0
  else 0.

Definition broadcast_to (n : nat) (v : value) : list R :=
  match v with
  | Scalar r => repeat r n
  | Vector l => l
  end.

(** The density of every component of [xs] under distribution [d]. *)
Definition densities (p : point) (d : distribution) (xs : list R)
  : result (list R) :=
  match d with
  | Normal mu sd =>
      m <- eval p mu ;;
      s <- eval p sd ;;
      let mus := broadcast_to (length xs) m in
      let sds := broadcast_to (length xs) s in
      if Nat.eqb (length mus) (length xs) && Nat.eqb (length sds) (length xs)
      then Ok (map (fun t => normal_pdf (fst (snd t)) (snd (snd t)) (fst t))
                   (combine xs (combine mus sds)))
      else Error "ValueError"
  | HalfCauchy beta =>
      b <- eval p beta ;;
      let bs := broadcast_to (length xs) b in
      if Nat.eqb (length bs) (length xs)
      then Ok (map (fun t => halfcauchy_pdf (snd t) (fst t)) (combine xs bs))
      else Error "ValueError"
  end.

Definition prod (l : list R) : R := fold_right Rmult 1%R l.

(** The joint density of an observed variable: PyMC3 sums the
    elementwise log-densities, that is, multiplies the densities. *)
Definition joint_density (p : point) (o : ObservedRV) : result R :=
  ds <- densities p (likelihood o) (observed o) ;;
  Ok (prod ds).

End pm.

(** ** Inference and summaries (cells 9 to 11) *)

Module Inference.

Inductive step_method : Type := Metropolis | NUTS.
Inductive start_point : Type := find_MAP | default_start.

Record sample_args := {
  draws : Z;
  step : step_method;
  start : start_point
}.

(** [pm.sample(draws=10000, step=pm.Metropolis(), start=pm.find_MAP())] *)
Definition sample_call : sample_args :=
  {| draws := 10000; step := Metropolis; start := find_MAP |}.

(** The Python slice [t[k:]]: a negative [k] counts from the end. *)
Definition slice_from {A} (k : Z) (t : list A) : list A :=
  let n := Z.of_nat (length t) in
  skipn (Z.to_nat (if (k <? 0)%Z then Z.max 0 (n + k) else k)) t.

Definition burn_in : Z := 5000.

Section Sampler.

(** The external sampling facility. *)
Variable sample : pm.Model -> sample_args -> list pm.point.

(** [trace = pm.sample(...)] *)
Definition trace (m : pm.Model) : list pm.point := sample m sample_call.

(** The argument of [pm.traceplot(trace[5000:])]. *)
Definition traceplot_input (m : pm.Model) : list pm.point :=
  slice_from burn_in (trace m).

(** The argument of [pm.summary(trace[5000:])]. *)
Definition summary_input (m : pm.Model) : list pm.point :=
  slice_from burn_in (trace m).

End Sampler.

End Inference.

(** ** The notebook from generated data to declared model *)

Definition notebook_data (z : nat -> nat -> R) : result (list IRow) :=
  d <- Generator.data Generator.x_concs Generator.ic50_true
                      Generator.beta_true z ;;
  Ok (add_idxs d).

Definition notebook_model (z : nat -> nat -> R) : result pm.Model :=
  d <- notebook_data z ;;
  pm.model d.

(** ** The response in binary64 *)

Module f64.

Section Exponential.

(** The exponential of the floating-point library, with its result in
    binary64. *)
Variable exp : float -> float.

(** [beta / (1 + exp(concentration - ic50))] for one observation, one
    binary64 operation after the other, as the expression of
    [measurements] is evaluated. *)
Definition exponent (concentration ic50 : float) : float :=
  (concentration - ic50)%float.

Definition denominator (concentration ic50 : float) : float :=
  (1 + exp (exponent concentration ic50))%float.

Definition response (beta concentration ic50 : float) : float :=
  (beta / denominator concentration ic50)%float.

End Exponential.


End f64.

(** ** Example frames *)

Module Examples.

(** A study of drugs 0, 1 and 2 in which drug 1 was never measured. *)
Definition drug_1_missing : list Row :=
  [ {| concentrations := 10; measurements := 1; drug := 0 |};
    {| concentrations := 10; measurements := 0; drug := 2 |} ].

(** One observation at a negative concentration, one at zero. *)
Definition negative_concentration : list Row :=
  [ {| concentrations := -5; measurements := 1; drug := 0 |};
    {| concentrations := 0; measurements := 1; drug := 0 |} ].

(** A parameter point for two drugs. *)
Definition two_drug_point : pm.point :=
  fun nm => if String.eqb nm "noise" then [1; 2]%R else [3; 4]%R.

(** A sampler that returns the requested number of draws. *)
Definition constant_sampler (m : pm.Model) (a : Inference.sample_args)
  : list pm.point :=
  repeat two_drug_point (Z.to_nat (Inference.draws a)).

End Examples.

(** ** Shapes of values *)

(** The shape of an evaluated tensor: [None] for a scalar, the length for a
    vector, as [pm.check] reports shapes. *)
Definition value_shape (v : pm.value) : option nat :=
  match v with
  | pm.Scalar _ => None
  | pm.Vector l => Some (length l)
  end.

(** ** The generator's parameters as a point of the model *)

(** The values the generator works with, laid out as the model's parameter
    vectors: the shared amplitude and the noise scale repeated for every
    drug, and the true IC50 of each drug. *)
Definition true_point (ic50s : list Z) (beta : Z) : pm.point :=
  fun nm =>
    if String.eqb nm "IC50" then map IZR ic50s
    else if String.eqb nm "beta" then repeat (IZR beta) (length ic50s)
    else repeat Generator.noise_sd (length ic50s).

(** * Properties *)

(** ** Lists laid out in equal blocks *)

Section Blocks.

Context {A : Type}.
Variables (f : nat -> list A) (n : nat).
Hypothesis f_length : forall g, length (f g) = n.

Lemma length_flat_map_blocks (s k : nat) :
  length (flat_map f (seq s k)) = k * n.
Proof.
  revert s; induction k as [|k IH]; intros s; simpl; [reflexivity|].
  rewrite length_app, f_length, IH; reflexivity.
Qed.

Lemma nth_error_flat_map_blocks (s k g j : nat) :
  g < k -> j < n ->
  nth_error (flat_map f (seq s k)) (g * n + j) = nth_error (f (s + g)) j.
Proof.
  revert s g; induction k as [|k IH]; intros s g Hg Hj; [lia|].
  simpl. destruct g as [|g].
  - rewrite nth_error_app1 by (rewrite f_length; lia).
    simpl. rewrite Nat.add_0_r. reflexivity.
  - rewrite nth_error_app2 by (rewrite f_length; simpl; lia).
    rewrite f_length.
    replace (S g * n + j - n) with (g * n + j) by (simpl; lia).
    rewrite IH by lia. f_equal. f_equal. lia.
Qed.

End Blocks.

Lemma concat_repeat_flat_map {A} (l : list A) (k s : nat) :
  concat (repeat l k) = flat_map (fun _ => l) (seq s k).
Proof.
  revert s; induction k as [|k IH]; intros s; simpl; [reflexivity|].
  rewrite (IH (S s)); reflexivity.
Qed.

(** A row position [g * n + j] with [j < n] determines [g] and [j]. *)
Lemma block_position_unique (n g j g' j' : nat) :
  j < n -> j' < n -> g * n + j = g' * n + j' -> g = g' /\ j = j'.
Proof.
  intros Hj Hj' E.
  assert (g = g') by nia. subst. split; [reflexivity | lia].
Qed.

Lemma block_position_exists (n k r : nat) :
  r < k * n -> exists g j, g < k /\ j < n /\ r = g * n + j.
Proof.
  intros Hr. assert (n <> 0) by nia.
  exists (r / n), (r mod n). repeat split.
  - apply Nat.Div0.div_lt_upper_bound. lia.
  - apply Nat.mod_upper_bound; assumption.
  - rewrite (Nat.div_mod_eq r n) at 1. lia.
Qed.

(** ** Frame assembly *)

Lemma from_columns_ok (cs ms : list R) (ds : list Z) :
  length ms = length cs -> length ds = length cs ->
  exists rows,
    pd.from_columns cs ms ds = Ok rows /\
    map concentrations rows = cs /\
    map measurements rows = ms /\
    map drug rows = ds.
Proof.
  revert ms ds; induction cs as [|c cs IH]; intros [|m ms] [|d ds] Hm Hd;
    simpl in *; try discriminate.
  - exists []. repeat split.
  - destruct (IH ms ds) as (rows & E & Hc & Hm' & Hd'); [lia | lia |].
    rewrite E. simpl. eexists; split; [reflexivity|].
    simpl. rewrite Hc, Hm', Hd'. repeat split.
Qed.

Lemma nth_error_row (rows : list Row) (i : nat) c m d :
  nth_error (map concentrations rows) i = Some c ->
  nth_error (map measurements rows) i = Some m ->
  nth_error (map drug rows) i = Some d ->
  nth_error rows i =
    Some {| concentrations := c; measurements := m; drug := d |}.
Proof.
  rewrite !nth_error_map.
  destruct (nth_error rows i) as [[c' m' d']|]; simpl; [|discriminate].
  intros [= ->] [= ->] [= ->]. reflexivity.
Qed.

(** ** The synthetic data generator *)

Section GeneratorFacts.

Variables (grid ic50s : list Z) (beta : Z) (z : nat -> nat -> R).

Lemma length_concentrations_col :
  length (Generator.concentrations_col grid ic50s) = length ic50s * length grid.
Proof.
  unfold Generator.concentrations_col, np.concatenate.
  rewrite (concat_repeat_flat_map grid (length ic50s) 0).
  apply length_flat_map_blocks. reflexivity.
Qed.

Lemma length_flatten_y_noisy :
  length (np.flatten_F (Generator.y_noisy grid ic50s beta z))
  = length ic50s * length grid.
Proof.
  unfold np.flatten_F. simpl.
  apply length_flat_map_blocks. intros g.
  rewrite length_map, length_seq. reflexivity.
Qed.

Lemma length_drugs :
  length (Generator.drugs grid ic50s) = length ic50s * length grid.
Proof.
  unfold Generator.drugs. apply length_flat_map_blocks.
  intros g. apply repeat_length.
Qed.

Lemma nth_error_concentrations_col (g j : nat) :
  g < length ic50s -> j < length grid ->
  nth_error (Generator.concentrations_col grid ic50s) (g * length grid + j)
  = Some (nth j grid 0%Z).
Proof.
  intros Hg Hj. unfold Generator.concentrations_col, np.concatenate.
  rewrite (concat_repeat_flat_map grid (length ic50s) 0).
  rewrite (@nth_error_flat_map_blocks _ (fun _ => grid) (length grid)) by auto.
  apply nth_error_nth'. exact Hj.
Qed.

Lemma nth_error_flatten_y_noisy (g j : nat) :
  g < length ic50s -> j < length grid ->
  nth_error (np.flatten_F (Generator.y_noisy grid ic50s beta z))
            (g * length grid + j)
  = Some (np.item (Generator.y_noisy grid ic50s beta z) j g).
Proof.
  intros Hg Hj. unfold np.flatten_F.
  change (np.nrows (Generator.y_noisy grid ic50s beta z)) with (length grid).
  change (np.ncols (Generator.y_noisy grid ic50s beta z)) with (length ic50s).
  rewrite (@nth_error_flat_map_blocks _ _ (length grid))
    by (auto; intros; rewrite length_map, length_seq; reflexivity).
  rewrite nth_error_map.
  rewrite (nth_error_nth' _ 0) by (rewrite length_seq; exact Hj).
  rewrite seq_nth by exact Hj. reflexivity.
Qed.

Lemma nth_error_drugs (g j : nat) :
  g < length ic50s -> j < length grid ->
  nth_error (Generator.drugs grid ic50s) (g * length grid + j) = Some (Z.of_nat g).
Proof.
  intros Hg Hj. unfold Generator.drugs.
  rewrite (@nth_error_flat_map_blocks _ _ (length grid))
    by (auto; intros; apply repeat_length).
  simpl.
  rewrite (nth_error_nth' _ (Z.of_nat g)) by (rewrite repeat_length; exact Hj).
  rewrite nth_repeat. reflexivity.
Qed.

End GeneratorFacts.

Lemma y_true_item (grid ic50s : list Z) (beta : Z) (j g : nat) (c t : Z) :
  nth_error grid j = Some c -> nth_error ic50s g = Some t ->
  np.item (Generator.y_true grid ic50s beta) j g
  = (IZR beta / (1 + exp (IZR c - IZR t)))%R.
Proof.
  intros Hc Ht. simpl.
  rewrite (nth_error_nth _ _ _ Hc), (nth_error_nth _ _ _ Ht).
  unfold Generator.response. rewrite minus_IZR. reflexivity.
Qed.

(** C5: for every drug [g] with true IC50 [t] and every grid concentration
    [c], the generator computes the noiseless response
    [beta_true / (1 + exp (c - t))] and adds to it the entry [j, g] of one
    Gaussian draw of the shape of [y_true], whose location [0] and scale
    [0.15] are the same for every observation. *)
Theorem y_noisy_homoskedastic :
  forall (grid ic50s : list Z) (beta : Z) (z : nat -> nat -> R)
         (j g : nat) (c t : Z),
    nth_error grid j = Some c ->
    nth_error ic50s g = Some t ->
    np.item (Generator.y_true grid ic50s beta) j g
      = (IZR beta / (1 + exp (IZR c - IZR t)))%R /\
    np.item (Generator.y_noisy grid ic50s beta z) j g
      = (IZR beta / (1 + exp (IZR c - IZR t)) + (0 + 15 / 100 * z j g))%R /\
    np.shape (Generator.y_noisy grid ic50s beta z)
      = (length grid, length ic50s).
Proof.
  intros grid ic50s beta z j g c t Hc Ht.
  pose proof (y_true_item grid ic50s beta j g c t Hc Ht) as E.
  split; [exact E|]. split; [|reflexivity].
  change (np.item (Generator.y_noisy grid ic50s beta z) j g)
    with (np.item (Generator.y_true grid ic50s beta) j g
          + (0 + Generator.noise_sd * z j g))%R.
  rewrite E. reflexivity.
Qed.

Lemma y_noisy_homoskedastic_witness :
  np.item (Generator.y_noisy Generator.x_concs Generator.ic50_true
                             Generator.beta_true (fun _ _ => 1%R)) 3 1
  = (IZR 1 / (1 + exp (IZR 30 - IZR 13)) + (0 + 15 / 100 * 1))%R.
Proof.
  apply (y_noisy_homoskedastic Generator.x_concs Generator.ic50_true
           Generator.beta_true (fun _ _ => 1%R) 3 1 30%Z 13%Z);
    reflexivity.
Defined.

(** C6: the noiseless response evaluated at a concentration equal to the
    drug's true IC50 is [beta_true / 2], for the response function and for
    every entry of [y_true] whose grid value is the drug's IC50. *)
Theorem y_true_half_maximal :
  forall (grid ic50s : list Z) (beta : Z) (j g : nat) (t : Z),
    nth_error grid j = Some t ->
    nth_error ic50s g = Some t ->
    Generator.response beta t t = (IZR beta / 2)%R /\
    np.item (Generator.y_true grid ic50s beta) j g = (IZR beta / 2)%R.
Proof.
  intros grid ic50s beta j g t Hc Ht.
  assert (E : Generator.response beta t t = (IZR beta / 2)%R).
  { unfold Generator.response. rewrite Z.sub_diag, exp_0.
    replace (1 + 1)%R with 2%R by lra. reflexivity. }
  split; [exact E|].
  rewrite (y_true_item grid ic50s beta j g t t Hc Ht).
  rewrite <- E. unfold Generator.response. rewrite minus_IZR. reflexivity.
Qed.

Lemma y_true_half_maximal_witness :
  np.item (Generator.y_true Generator.x_concs Generator.ic50_true
                            Generator.beta_true) 28 0
  = (IZR Generator.beta_true / 2)%R.
Proof.
  apply (y_true_half_maximal Generator.x_concs Generator.ic50_true
           Generator.beta_true 28 0 42%Z); reflexivity.
Defined.

(** C7: the assembled frame has one row per pair of a drug and a grid
    position, [length grid * length ic50s] rows in all (48 * 3 = 144 for the
    notebook's grid); the row at position [g * length grid + j] holds the
    [j]-th grid concentration, the drug label [g] and the noisy measurement
    [y_noisy[j, g]], and every row position is of that form for exactly one
    pair [(g, j)]. *)
Theorem data_rows_aligned :
  forall (grid ic50s : list Z) (beta : Z) (z : nat -> nat -> R),
  exists rows,
    Generator.data grid ic50s beta z = Ok rows /\
    length rows = length ic50s * length grid /\
    (forall g j, g < length ic50s -> j < length grid ->
       nth_error rows (g * length grid + j)
       = Some {| concentrations := IZR (nth j grid 0%Z);
                 measurements :=
                   np.item (Generator.y_noisy grid ic50s beta z) j g;
                 drug := Z.of_nat g |}) /\
    (forall r, r < length rows ->
       exists g j, g < length ic50s /\ j < length grid /\
                   r = g * length grid + j /\
                   forall g' j', j' < length grid ->
                     r = g' * length grid + j' -> g' = g /\ j' = j) /\
    (length Generator.x_concs = 48 /\ length Generator.ic50_true = 3 /\
     (grid = Generator.x_concs -> ic50s = Generator.ic50_true ->
      length rows = 144)).
Proof.
  intros grid ic50s beta z.
  pose proof (length_concentrations_col grid ic50s) as Lc.
  pose proof (length_flatten_y_noisy grid ic50s beta z) as Lm.
  pose proof (length_drugs grid ic50s) as Ld.
  destruct (from_columns_ok
              (map IZR (Generator.concentrations_col grid ic50s))
              (np.flatten_F (Generator.y_noisy grid ic50s beta z))
              (Generator.drugs grid ic50s))
    as (rows & E & Hc & Hm & Hd).
  { rewrite length_map. congruence. }
  { rewrite length_map. congruence. }
  assert (Lr : length rows = length ic50s * length grid).
  { rewrite <- Lc, <- (length_map IZR), <- Hc, length_map. reflexivity. }
  exists rows. split; [exact E|]. split; [exact Lr|].
  split; [|split].
  - intros g j Hg Hj. apply nth_error_row.
    + rewrite Hc, nth_error_map,
        (nth_error_concentrations_col grid ic50s g j Hg Hj).
      reflexivity.
    + rewrite Hm. apply nth_error_flatten_y_noisy; assumption.
    + rewrite Hd. apply nth_error_drugs; assumption.
  - intros r Hr. rewrite Lr in Hr.
    destruct (block_position_exists _ _ _ Hr) as (g & j & Hg & Hj & Er).
    exists g, j. repeat split; try assumption.
    all: intros; subst r;
      destruct (block_position_unique (length grid) g j g' j');
      auto.
  - split; [reflexivity|]. split; [reflexivity|].
    intros -> ->. rewrite Lr. reflexivity.
Qed.

Lemma data_rows_aligned_witness :
  exists rows,
    Generator.data Generator.x_concs Generator.ic50_true
                   Generator.beta_true (fun _ _ => 0%R) = Ok rows /\
    length rows = 144 /\
    nth_error rows (2 * 48 + 47)
    = Some {| concentrations := 95;
              measurements :=
                np.item (Generator.y_noisy Generator.x_concs
                           Generator.ic50_true Generator.beta_true
                           (fun _ _ => 0%R)) 47 2;
              drug := 2 |}.
Proof.
  destruct (data_rows_aligned Generator.x_concs Generator.ic50_true
              Generator.beta_true (fun _ _ => 0%R))
    as (rows & E & L & Hrow & _ & _).
  exists rows. split; [exact E|]. split; [exact L|].
  apply (Hrow 2 47); simpl; lia.
Defined.

(** ** Label encoding *)

Section Encoder.

Import sklearn.

Lemma insert_In (x v : Z) (l : list Z) :
  In v (insert x l) <-> v = x \/ In v l.
Proof.
  induction l as [|y l IH]; simpl.
  - intuition.
  - destruct (Z.ltb_spec x y); [simpl; intuition|].
    destruct (Z.eqb_spec x y); simpl.
    + subst. intuition.
    + rewrite IH. intuition.
Qed.

Lemma insert_sorted (x : Z) (l : list Z) :
  StronglySorted Z.lt l -> StronglySorted Z.lt (insert x l).
Proof.
  induction 1 as [|y l Hs IH Hy]; simpl.
  - constructor; constructor.
  - destruct (Z.ltb_spec x y).
    + constructor; [constructor; assumption|].
      constructor; [assumption|].
      revert Hy. apply Forall_impl. intros; lia.
    + destruct (Z.eqb_spec x y); [constructor; assumption|].
      constructor; [assumption|].
      apply Forall_forall. intros v Hv. apply insert_In in Hv.
      destruct Hv as [->|Hv]; [lia|].
      rewrite Forall_forall in Hy. auto.
Qed.

Lemma unique_In (y : list Z) (v : Z) : In v (unique y) <-> In v y.
Proof.
  induction y as [|x y IH]; simpl; [tauto|].
  rewrite insert_In, IH. intuition.
Qed.

Lemma unique_sorted (y : list Z) : StronglySorted Z.lt (unique y).
Proof.
  induction y; simpl; [constructor | apply insert_sorted; assumption].
Qed.

Lemma sorted_NoDup (l : list Z) : StronglySorted Z.lt l -> NoDup l.
Proof.
  induction 1 as [|y l Hs IH Hy]; constructor; [|assumption].
  intros Hin. rewrite Forall_forall in Hy. specialize (Hy _ Hin). lia.
Qed.

Lemma unique_NoDup (y : list Z) : NoDup (unique y).
Proof. apply sorted_NoDup, unique_sorted. Qed.

(** The classes are the distinct labels. *)
Lemma length_unique (y : list Z) :
  length (unique y) = length (nodup Z.eq_dec y).
Proof.
  apply Permutation_length, NoDup_Permutation.
  - apply unique_NoDup.
  - apply NoDup_nodup.
  - intros v. rewrite unique_In, nodup_In. tauto.
Qed.

Lemma index_of_bounds (x : Z) (cs : list Z) :
  In x cs -> (0 <= index_of x cs < Z.of_nat (length cs))%Z.
Proof.
  induction cs as [|c cs IH]; [simpl; tauto|].
  intros H. cbn [index_of length]. rewrite Nat2Z.inj_succ.
  destruct (Z.eqb_spec x c); [lia|].
  destruct H as [->|H]; [congruence|]. specialize (IH H). lia.
Qed.

Lemma index_of_nth (cs : list Z) (g : nat) :
  NoDup cs -> g < length cs ->
  index_of (nth g cs 0%Z) cs = Z.of_nat g.
Proof.
  intros Hnd; revert g; induction Hnd as [|c cs Hc Hnd IH]; intros g Hg;
    cbn [length] in Hg; [lia|].
  destruct g as [|g]; cbn [nth index_of].
  - rewrite Z.eqb_refl. reflexivity.
  - destruct (Z.eqb_spec (nth g cs 0%Z) c) as [E|E].
    + exfalso. apply Hc. rewrite <- E. apply nth_In. lia.
    + rewrite IH by lia. lia.
Qed.

(** Every encoded label lies in the dense range [0 .. k-1]. *)
Lemma fit_transform_range (y : list Z) (v : Z) :
  In v (fit_transform y) ->
  (0 <= v < Z.of_nat (length (unique y)))%Z.
Proof.
  unfold fit_transform. rewrite in_map_iff. intros (x & <- & Hx).
  apply index_of_bounds, unique_In, Hx.
Qed.

(** Every index of the dense range is the code of some row. *)
Lemma fit_transform_onto (y : list Z) (g : nat) :
  g < length (unique y) -> In (Z.of_nat g) (fit_transform y).
Proof.
  intros Hg. unfold fit_transform. apply in_map_iff.
  exists (nth g (unique y) 0%Z). split.
  - apply index_of_nth; [apply unique_NoDup | exact Hg].
  - apply unique_In, nth_In, Hg.
Qed.

Lemma length_fit_transform (y : list Z) :
  length (fit_transform y) = length y.
Proof. unfold fit_transform. apply length_map. Qed.

End Encoder.

(** ** Counting distinct indices *)

Lemma NoDup_range (N : nat) : NoDup (map Z.of_nat (seq 0 N)).
Proof.
  apply Finite.Injective_map_NoDup; [|apply seq_NoDup].
  intros a b. apply Nat2Z.inj.
Qed.

Lemma In_range (N : nat) (v : Z) :
  In v (map Z.of_nat (seq 0 N)) <-> (0 <= v < Z.of_nat N)%Z.
Proof.
  rewrite in_map_iff. split.
  - intros (i & <- & Hi). apply in_seq in Hi. lia.
  - intros Hv. exists (Z.to_nat v). split; [lia|]. apply in_seq. lia.
Qed.

Lemma distinct_at_least (l : list Z) (N : nat) :
  (forall v, (0 <= v < Z.of_nat N)%Z -> In v l) ->
  N <= length (nodup Z.eq_dec l).
Proof.
  intros H.
  replace N with (length (map Z.of_nat (seq 0 N))) at 1
    by (rewrite length_map; apply length_seq).
  apply NoDup_incl_length; [apply NoDup_range|].
  intros v Hv. apply nodup_In, H, In_range, Hv.
Qed.

Lemma distinct_at_most (l : list Z) (N : nat) :
  (forall v, In v l -> (0 <= v < Z.of_nat N)%Z) ->
  length (nodup Z.eq_dec l) <= N.
Proof.
  intros H.
  replace N with (length (map Z.of_nat (seq 0 N))) at 1
    by (rewrite length_map; apply length_seq).
  apply NoDup_incl_length; [apply NoDup_nodup|].
  intros v Hv. apply In_range, H, (nodup_In Z.eq_dec), Hv.
Qed.

(** ** The [idxs] column *)

Lemma map_snd_combine {A B} (l : list A) (l' : list B) :
  length l = length l' -> map snd (combine l l') = l'.
Proof.
  revert l'; induction l as [|a l IH]; intros [|b l'] H; simpl in *;
    try discriminate; [reflexivity|].
  f_equal. apply IH. lia.
Qed.

Lemma map_fst_combine {A B} (l : list A) (l' : list B) :
  length l = length l' -> map fst (combine l l') = l.
Proof.
  revert l'; induction l as [|a l IH]; intros [|b l'] H; simpl in *;
    try discriminate; [reflexivity|].
  f_equal. apply IH. lia.
Qed.

Lemma col_idxs_add_idxs (data : list Row) :
  col_idxs (add_idxs data)
  = map astype_int32 (sklearn.fit_transform (map drug data)).
Proof.
  unfold col_idxs, add_idxs. rewrite map_map. simpl.
  apply map_snd_combine.
  rewrite length_map, length_fit_transform, length_map. reflexivity.
Qed.

Lemma map_row_add_idxs (data : list Row) : map row (add_idxs data) = data.
Proof.
  unfold add_idxs. rewrite map_map. simpl.
  apply map_fst_combine.
  rewrite length_map, length_fit_transform, length_map. reflexivity.
Qed.

Lemma astype_int32_small (v : Z) :
  (0 <= v < 2 ^ 31)%Z -> astype_int32 v = v.
Proof.
  intros H. unfold astype_int32. rewrite Z.mod_small; lia.
Qed.

Lemma astype_int32_range (v : Z) :
  (- 2 ^ 31 <= astype_int32 v < 2 ^ 31)%Z.
Proof.
  unfold astype_int32.
  pose proof (Z.mod_pos_bound (v + 2 ^ 31) (2 ^ 32)). lia.
Qed.

Lemma length_nodup_le (l : list Z) : length (nodup Z.eq_dec l) <= length l.
Proof.
  apply NoDup_incl_length; [apply NoDup_nodup|].
  intros v. apply nodup_In.
Qed.

(** The encoder uses every index of the dense range, and nothing else. *)
Lemma distinct_fit_transform (y : list Z) :
  length (nodup Z.eq_dec (sklearn.fit_transform y))
  = length (sklearn.unique y).
Proof.
  apply Nat.le_antisymm.
  - apply distinct_at_most. apply fit_transform_range.
  - apply distinct_at_least. intros u Hu.
    replace u with (Z.of_nat (Z.to_nat u)) by lia.
    apply fit_transform_onto. lia.
Qed.

(** On a frame of at most [2^31] rows the cast to 32 bits changes nothing:
    the indices are the encoder's, and [datasize] counts the distinct drugs. *)
Lemma idxs_dense (data : list Row) :
  (Z.of_nat (length data) <= 2 ^ 31)%Z ->
  col_idxs (add_idxs data) = sklearn.fit_transform (map drug data) /\
  pm.datasize (add_idxs data) = length (nodup Z.eq_dec (map drug data)).
Proof.
  intros Hsmall.
  pose proof (length_nodup_le (map drug data)) as Hle.
  rewrite length_map, <- length_unique in Hle.
  assert (E : col_idxs (add_idxs data)
              = sklearn.fit_transform (map drug data)).
  { rewrite col_idxs_add_idxs.
    rewrite <- (map_id (sklearn.fit_transform _)) at 2.
    apply map_ext_in. intros v Hv. apply astype_int32_small.
    apply fit_transform_range in Hv. lia. }
  split; [exact E|].
  unfold pm.datasize.
  rewrite E, distinct_fit_transform. apply length_unique.
Qed.

(** Whatever the frame, every index of the [idxs] column is a valid index
    into a vector of [datasize] components. *)
Lemma idxs_valid (data : list Row) :
  forallb (pm.valid_index (pm.datasize (add_idxs data)))
          (col_idxs (add_idxs data)) = true.
Proof.
  apply forallb_forall. intros w Hw. unfold pm.valid_index.
  apply andb_true_iff. rewrite Z.leb_le, Z.ltb_lt.
  destruct (Z_le_gt_dec (Z.of_nat (length data)) (2 ^ 31)) as [Hs|Hb].
  - destruct (idxs_dense data Hs) as [E D]. rewrite E in Hw.
    rewrite D, <- length_unique.
    apply fit_transform_range in Hw. lia.
  - pose proof (astype_int32_range) as Hr.
    rewrite col_idxs_add_idxs in Hw. apply in_map_iff in Hw.
    destruct Hw as (v & <- & Hv). specialize (Hr v).
    destruct (Z_le_gt_dec (Z.of_nat (length (sklearn.unique (map drug data))))
                          (2 ^ 31)) as [Hk|Hk].
    + assert (Z.of_nat (pm.datasize (add_idxs data))
              = Z.of_nat (length (sklearn.unique (map drug data)))) as ->.
      { f_equal. unfold pm.datasize. rewrite col_idxs_add_idxs.
        replace (map astype_int32 (sklearn.fit_transform (map drug data)))
          with (sklearn.fit_transform (map drug data)).
        - apply distinct_fit_transform.
        - rewrite <- (map_id (sklearn.fit_transform _)) at 1.
          apply map_ext_in. intros u Hu. symmetry.
          apply astype_int32_small.
          apply fit_transform_range in Hu. lia. }
      apply fit_transform_range in Hv.
      rewrite astype_int32_small by lia. lia.
    + assert (Hd : (2 ^ 31 <= Z.of_nat (pm.datasize (add_idxs data)))%Z).
      { remember (2 ^ 31)%Z as M eqn:HM.
        assert (HN : Z.to_nat M <= pm.datasize (add_idxs data)).
        { unfold pm.datasize. rewrite col_idxs_add_idxs.
          apply distinct_at_least. intros u Hu.
          apply in_map_iff. exists u. split.
          - apply astype_int32_small. lia.
          - replace u with (Z.of_nat (Z.to_nat u)) by lia.
            apply fit_transform_onto. lia. }
        assert (0 <= M)%Z by (subst M; lia). lia. }
      lia.
Qed.

(** ** The declared model *)

Lemma length_col_concentrations (data : list IRow) :
  length (col_concentrations data) = length data.
Proof. apply length_map. Qed.

Lemma length_col_measurements (data : list IRow) :
  length (col_measurements data) = length data.
Proof. apply length_map. Qed.

Lemma length_col_idxs (data : list IRow) :
  length (col_idxs data) = length data.
Proof. apply length_map. Qed.

Lemma datasize_zero (data : list IRow) :
  pm.datasize data = 0 <-> data = [].
Proof.
  unfold pm.datasize, col_idxs. split; [|intros ->; reflexivity].
  destruct data as [|r data]; [reflexivity|]. intros H. exfalso.
  apply length_zero_iff_nil in H.
  assert (Hin : In (idxs r) (nodup Z.eq_dec (map idxs (r :: data))))
    by (apply nodup_In; left; reflexivity).
  rewrite H in Hin. exact Hin.
Qed.

(** The declaration refuses a frame without rows, whose parameter vectors
    would have no component; on a frame with rows it succeeds exactly when
    every index is valid. *)
Lemma model_spec (data : list IRow) :
  pm.model data
  = if Nat.eqb (pm.datasize data) 0 then Error "ValueError"
    else if forallb (pm.valid_index (pm.datasize data)) (col_idxs data)
         then Ok (pm.declared data)
         else Error "IndexError".
Proof.
  unfold pm.model, pm.register.
  cbn [pm.shape pm.beta pm.noise pm.ic50].
  destruct (Nat.eqb (pm.datasize data) 0); [reflexivity|]. cbn [bind].
  unfold pm.measurements, pm.y_like_sd. simpl.
  destruct (forallb (pm.valid_index (pm.datasize data)) (col_idxs data));
    simpl; [|reflexivity].
  rewrite length_col_concentrations, length_col_idxs, Nat.eqb_refl.
  simpl. rewrite Nat.eqb_refl. reflexivity.
Qed.

Lemma model_ok_inv (data : list IRow) (m : pm.Model) :
  pm.model data = Ok m ->
  forallb (pm.valid_index (pm.datasize data)) (col_idxs data) = true /\
  m = pm.declared data /\ data <> [].
Proof.
  rewrite model_spec.
  destruct (Nat.eqb_spec (pm.datasize data) 0) as [E|E]; [discriminate|].
  destruct (forallb (pm.valid_index (pm.datasize data)) (col_idxs data));
    [|discriminate].
  intros [= <-]. repeat split. intros ->. apply E. reflexivity.
Qed.

Lemma add_idxs_nil (data : list Row) : add_idxs data = [] <-> data = [].
Proof.
  split; [|intros ->; reflexivity].
  intros H. rewrite <- (map_row_add_idxs data), H. reflexivity.
Qed.

Lemma model_add_idxs (data : list Row) :
  data <> [] ->
  pm.model (add_idxs data) = Ok (pm.declared (add_idxs data)).
Proof.
  intros Hne. rewrite model_spec, idxs_valid.
  destruct (Nat.eqb_spec (pm.datasize (add_idxs data)) 0) as [E|E];
    [|reflexivity].
  exfalso. apply Hne, add_idxs_nil, datasize_zero, E.
Qed.

Lemma map_combine_maps {A B C D} (f : B -> C -> D) (a : A -> B) (b : A -> C)
      (l : list A) :
  map (fun xy => f (fst xy) (snd xy)) (combine (map a l) (map b l))
  = map (fun r => f (a r) (b r)) l.
Proof. induction l; simpl; [reflexivity | f_equal; assumption]. Qed.

Lemma map_combine3 {A} (f : R -> R -> R -> R) (a b c : A -> R)
      (l : list A) :
  map (fun t => f (fst t) (fst (snd t)) (snd (snd t)))
      (combine (map a l) (combine (map b l) (map c l)))
  = map (fun r => f (a r) (b r) (c r)) l.
Proof. induction l; simpl; [reflexivity | f_equal; assumption]. Qed.

Section Denotation.

Variables (data : list IRow) (p : pm.point).

Hypothesis indices_valid :
  forallb (pm.valid_index (pm.datasize data)) (col_idxs data) = true.
Hypothesis beta_shape : length (p "beta") = pm.datasize data.
Hypothesis noise_shape : length (p "noise") = pm.datasize data.
Hypothesis ic50_shape : length (p "IC50") = pm.datasize data.

Lemma take_param (v : string) :
  length (p v) = pm.datasize data ->
  pm.take (p v) (col_idxs data)
  = Ok (map (fun r => pm.index (p v) (idxs r)) data).
Proof.
  intros L. unfold pm.take. rewrite L, indices_valid.
  unfold col_idxs. rewrite map_map. reflexivity.
Qed.

Lemma eval_measurements :
  pm.eval p (pm.measurements data)
  = Ok (pm.Vector
          (map (fun r => pm.index (p "beta") (idxs r)
                         / (1 + exp (concentrations (row r)
                                     - pm.index (p "IC50") (idxs r))))
               data))%R.
Proof.
  unfold pm.measurements. simpl.
  rewrite (take_param "beta" beta_shape), (take_param "IC50" ic50_shape).
  simpl. unfold col_concentrations.
  rewrite !length_map, Nat.eqb_refl.
  rewrite (map_combine_maps Rminus). simpl.
  rewrite !map_map, !length_map, Nat.eqb_refl.
  f_equal. f_equal.
  rewrite <- (map_combine_maps Rdiv
                (fun r => pm.index (p "beta") (idxs r))
                (fun r => 1 + exp (concentrations (row r)
                                   - pm.index (p "IC50") (idxs r)))%R).
  reflexivity.
Qed.

Lemma eval_y_like_sd :
  pm.eval p (pm.y_like_sd data)
  = Ok (pm.Vector (map (fun r => pm.index (p "noise") (idxs r)) data)).
Proof.
  unfold pm.y_like_sd. simpl.
  rewrite (take_param "noise" noise_shape). reflexivity.
Qed.

Lemma densities_y_like :
  pm.densities p (pm.likelihood (pm.y_like data))
               (pm.observed (pm.y_like data))
  = Ok (map (fun r =>
               pm.normal_pdf
                 (pm.index (p "beta") (idxs r)
                  / (1 + exp (concentrations (row r)
                              - pm.index (p "IC50") (idxs r))))
                 (pm.index (p "noise") (idxs r))
                 (measurements (row r)))
            data)%R.
Proof.
  unfold pm.y_like. cbn [pm.likelihood pm.observed pm.densities].
  rewrite eval_measurements, eval_y_like_sd.
  cbn [bind pm.broadcast_to]. unfold col_measurements.
  rewrite !length_map, Nat.eqb_refl. cbn [andb].
  f_equal.
  apply (map_combine3 (fun x m s => pm.normal_pdf m s x)).
Qed.

End Denotation.

(** ** Claims about the declared model *)

Lemma index_explicit (v : list R) (n : nat) (i : Z) :
  length v = n ->
  pm.index v i
  = nth (Z.to_nat (if (i <? 0)%Z then Z.of_nat n + i else i)%Z) v 0%R.
Proof. intros <-. reflexivity. Qed.

(** C1: in the declared model the observed variable [y_like] is Normal; at
    every parameter point its mean for an observation is
    [beta[g] / (1 + exp (concentration - ic50[g]))] and its standard
    deviation is [noise[g]], with [g] the component its drug index selects,
    so two observations of one drug share the noise scale; the joint
    density is the product over the observations of their Normal
    densities. *)
Theorem y_like_normal_per_drug :
  forall (data : list IRow) (m : pm.Model) (p : pm.point),
    pm.model data = Ok m ->
    (forall rv, In rv (pm.free_RVs m) ->
                length (p (pm.name rv)) = pm.shape rv) ->
    let g := fun r : IRow =>
      Z.to_nat (if (idxs r <? 0)%Z
                then Z.of_nat (pm.datasize data) + idxs r
                else idxs r)%Z in
    let mean := fun r : IRow =>
      (nth (g r) (p "beta") 0
       / (1 + exp (concentrations (row r) - nth (g r) (p "IC50") 0)))%R in
    let scale := fun r : IRow => nth (g r) (p "noise") 0%R in
    let normal := fun mu sd y : R =>
      if Rlt_dec 0 sd
      then (/ (sd * sqrt (2 * PI)) * exp (- ((y - mu) ^ 2) / (2 * sd ^ 2)))%R
      else 0%R in
    exists mus sds,
      pm.observed_RVs m = [pm.y_like data] /\
      pm.likelihood (pm.y_like data)
        = pm.Normal (pm.measurements data) (pm.y_like_sd data) /\
      pm.observed (pm.y_like data) = col_measurements data /\
      pm.eval p (pm.measurements data) = Ok (pm.Vector mus) /\
      pm.eval p (pm.y_like_sd data) = Ok (pm.Vector sds) /\
      mus = map mean data /\
      sds = map scale data /\
      (forall r, In r data -> g r < pm.datasize data) /\
      (forall ri rj, In ri data -> In rj data ->
         idxs ri = idxs rj -> scale ri = scale rj) /\
      pm.joint_density p (pm.y_like data)
        = Ok (fold_right Rmult 1%R
                (map (fun r => normal (mean r) (scale r)
                                      (measurements (row r)))
                     data)).
Proof.
  intros data m p Hm Hp g mean scale normal.
  destruct (model_ok_inv data m Hm) as (Hv & -> & _).
  assert (Hb : length (p "beta") = pm.datasize data)
    by (apply (Hp (pm.beta data)); simpl; auto).
  assert (Hn : length (p "noise") = pm.datasize data)
    by (apply (Hp (pm.noise data)); simpl; auto).
  assert (Hi : length (p "IC50") = pm.datasize data)
    by (apply (Hp (pm.ic50 data)); simpl; auto).
  exists (map mean data), (map scale data).
  split; [reflexivity|]. split; [reflexivity|]. split; [reflexivity|].
  split.
  { rewrite (eval_measurements data p Hv Hb Hi). f_equal. f_equal.
    apply map_ext. intros r. unfold mean, g.
    rewrite (index_explicit _ _ _ Hb), (index_explicit _ _ _ Hi).
    reflexivity. }
  split.
  { rewrite (eval_y_like_sd data p Hv Hn). f_equal. f_equal.
    apply map_ext. intros r. unfold scale, g.
    rewrite (index_explicit _ _ _ Hn). reflexivity. }
  split; [reflexivity|]. split; [reflexivity|]. split; [|split].
  - intros r Hr. rewrite forallb_forall in Hv.
    assert (H : pm.valid_index (pm.datasize data) (idxs r) = true)
      by (apply Hv; unfold col_idxs; apply in_map; exact Hr).
    unfold pm.valid_index in H.
    apply andb_true_iff in H. rewrite Z.leb_le, Z.ltb_lt in H.
    unfold g. destruct (Z.ltb_spec (idxs r) 0); lia.
  - intros ri rj _ _ E. unfold scale, g. rewrite E. reflexivity.
  - unfold pm.joint_density.
    rewrite (densities_y_like data p Hv Hb Hn Hi). cbn [bind].
    f_equal. unfold pm.prod. f_equal.
    apply map_ext. intros r. unfold normal, mean, scale, g, pm.normal_pdf.
    rewrite (index_explicit _ _ _ Hb), (index_explicit _ _ _ Hi),
      (index_explicit _ _ _ Hn).
    reflexivity.
Qed.

Lemma y_like_normal_per_drug_witness :
  exists mus sds,
    pm.eval Examples.two_drug_point
            (pm.measurements (add_idxs Examples.drug_1_missing))
      = Ok (pm.Vector mus) /\
    pm.eval Examples.two_drug_point
            (pm.y_like_sd (add_idxs Examples.drug_1_missing))
      = Ok (pm.Vector sds) /\
    mus = [3 / (1 + exp (10 - 3)); 4 / (1 + exp (10 - 4))]%R /\
    sds = [1; 2]%R /\
    pm.joint_density Examples.two_drug_point
                     (pm.y_like (add_idxs Examples.drug_1_missing))
    = Ok ((if Rlt_dec 0 1
           then / (1 * sqrt (2 * PI))
                * exp (- ((1 - 3 / (1 + exp (10 - 3))) ^ 2) / (2 * 1 ^ 2))
           else 0)
          * ((if Rlt_dec 0 2
              then / (2 * sqrt (2 * PI))
                   * exp (- ((0 - 4 / (1 + exp (10 - 4))) ^ 2) / (2 * 2 ^ 2))
              else 0)
             * 1))%R.
Proof.
  destruct (y_like_normal_per_drug
              (add_idxs Examples.drug_1_missing)
              (pm.declared (add_idxs Examples.drug_1_missing))
              Examples.two_drug_point)
    as (mus & sds & _ & _ & _ & Hmu & Hsd & Emu & Esd & _ & _ & Hj).
  - reflexivity.
  - intros rv [<-|[<-|[<-|[]]]]; reflexivity.
  - exists mus, sds. split; [exact Hmu|]. split; [exact Hsd|].
    split; [exact Emu|]. split; [exact Esd | exact Hj].
Defined.

Lemma densities_normal_const (p : pm.point) (mu sd : Z) (xs : list R) :
  pm.densities p (pm.Normal (pm.Int mu) (pm.Int sd)) xs
  = Ok (map (pm.normal_pdf (IZR mu) (IZR sd)) xs).
Proof.
  cbn [pm.densities pm.eval bind pm.broadcast_to].
  rewrite !repeat_length, Nat.eqb_refl. cbn [andb]. f_equal.
  induction xs as [|x xs IH]; simpl; [reflexivity|].
  f_equal. exact IH.
Qed.

Lemma densities_halfcauchy_const (p : pm.point) (b : Z) (xs : list R) :
  pm.densities p (pm.HalfCauchy (pm.Int b)) xs
  = Ok (map (pm.halfcauchy_pdf (IZR b)) xs).
Proof.
  cbn [pm.densities pm.eval bind pm.broadcast_to].
  rewrite !repeat_length, Nat.eqb_refl. f_equal.
  induction xs as [|x xs IH]; simpl; [reflexivity|].
  f_equal. exact IH.
Qed.

Lemma halfcauchy_pdf_negative (b x : R) :
  (x < 0)%R -> pm.halfcauchy_pdf b x = 0%R.
Proof.
  intros Hx. unfold pm.halfcauchy_pdf.
  destruct (Rlt_dec 0 b); [|reflexivity].
  destruct (Rle_dec 0 x); [lra | reflexivity].
Qed.

Lemma densities_normal_10000 (p : pm.point) (xs : list R) :
  pm.densities p (pm.Normal (pm.Int 0) (pm.Int 10000)) xs
  = Ok (map (fun x => / (10000 * sqrt (2 * PI))
                      * exp (- ((x - 0) ^ 2) / (2 * 10000 ^ 2)))%R xs).
Proof.
  rewrite densities_normal_const. f_equal. apply map_ext. intros x.
  unfold pm.normal_pdf. destruct (Rlt_dec 0 10000); [reflexivity | lra].
Qed.

Lemma densities_halfcauchy_10000 (p : pm.point) (xs : list R) :
  pm.densities p (pm.HalfCauchy (pm.Int 10000)) xs
  = Ok (map (fun x => if Rle_dec 0 x
                      then 2 / (PI * 10000 * (1 + (x / 10000) ^ 2))
                      else 0)%R xs).
Proof.
  rewrite densities_halfcauchy_const. f_equal. apply map_ext. intros x.
  unfold pm.halfcauchy_pdf. destruct (Rlt_dec 0 10000); [reflexivity | lra].
Qed.

(** C2: on a frame with rows the declaration has exactly three free
    variables, one prior each: [beta ~ Normal(0, 100^2)],
    [noise ~ HalfCauchy(100^2)] and [IC50 ~ Normal(0, 100^2)], each a vector
    with one component per distinct drug of the frame.  The prior
    parameters are constants, so every component has the same fixed prior
    density whatever the other drugs' values: the Gaussian density of mean
    [0] and standard deviation [10000], and the half-Cauchy density of scale
    [10000], which is positive on non-negative values and zero on negative
    ones. *)
Theorem priors_one_per_drug :
  forall data : list Row,
    data <> [] ->
    (Z.of_nat (length data) <= 2 ^ 31)%Z ->
    exists m,
      pm.model (add_idxs data) = Ok m /\
      pm.free_RVs m
      = [ {| pm.name := "beta";
             pm.prior := pm.Normal (pm.Int 0) (pm.Int 10000);
             pm.shape := length (nodup Z.eq_dec (map drug data)) |};
          {| pm.name := "noise";
             pm.prior := pm.HalfCauchy (pm.Int 10000);
             pm.shape := length (nodup Z.eq_dec (map drug data)) |};
          {| pm.name := "IC50";
             pm.prior := pm.Normal (pm.Int 0) (pm.Int 10000);
             pm.shape := length (nodup Z.eq_dec (map drug data)) |} ] /\
      0 < length (nodup Z.eq_dec (map drug data)) /\
      (forall (p : pm.point) (xs : list R),
         pm.densities p (pm.Normal (pm.Int 0) (pm.Int 10000)) xs
           = Ok (map (fun x => / (10000 * sqrt (2 * PI))
                               * exp (- ((x - 0) ^ 2) / (2 * 10000 ^ 2)))%R
                     xs) /\
         pm.densities p (pm.HalfCauchy (pm.Int 10000)) xs
           = Ok (map (fun x => if Rle_dec 0 x
                               then 2 / (PI * 10000 * (1 + (x / 10000) ^ 2))
                               else 0)%R
                     xs)).
Proof.
  intros data Hne Hsmall.
  destruct (idxs_dense data Hsmall) as [_ D].
  exists (pm.declared (add_idxs data)).
  split; [apply model_add_idxs; exact Hne|]. split; [|split].
  - unfold pm.declared, pm.beta, pm.noise, pm.ic50, pm.Normal_default_mu.
    cbn [pm.free_RVs]. rewrite D. reflexivity.
  - rewrite <- D.
    destruct (pm.datasize (add_idxs data)) eqn:E; [|lia].
    exfalso. apply Hne, add_idxs_nil, datasize_zero, E.
  - intros p xs. split.
    + apply densities_normal_10000.
    + apply densities_halfcauchy_10000.
Qed.

Lemma priors_one_per_drug_witness :
  exists m,
    pm.model (add_idxs Examples.drug_1_missing) = Ok m /\
    map pm.shape (pm.free_RVs m) = [2; 2; 2] /\
    map pm.prior (pm.free_RVs m)
    = [ pm.Normal (pm.Int 0) (pm.Int 10000);
        pm.HalfCauchy (pm.Int 10000);
        pm.Normal (pm.Int 0) (pm.Int 10000) ].
Proof.
  destruct (priors_one_per_drug Examples.drug_1_missing)
    as (m & Hm & Hrv & _).
  - discriminate.
  - simpl. lia.
  - exists m. split; [exact Hm|]. rewrite Hrv. split; reflexivity.
Defined.

(** C10: every lookup into the parameter vectors is in bounds.  For every
    frame with rows, each index [i] of the [idxs] column satisfies
    [-datasize <= i < datasize], the three parameter vectors have exactly
    [datasize] components, and so the declaration and every lookup
    [beta[idxs]], [noise[idxs]], [ic50[idxs]] succeed, each reading the
    component its index names; on a frame of at most [2^31] rows the indices
    are the dense codes [0 .. k-1] of the [k] distinct drugs and
    [datasize = k]. *)
Theorem lookups_in_bounds :
  forall data : list Row,
    data <> [] ->
    (forall r, In r (add_idxs data) ->
       pm.valid_index (pm.datasize (add_idxs data)) (idxs r) = true /\
       (- Z.of_nat (pm.datasize (add_idxs data)) <= idxs r
        < Z.of_nat (pm.datasize (add_idxs data)))%Z) /\
    (exists m,
       pm.model (add_idxs data) = Ok m /\
       forall rv, In rv (pm.free_RVs m) ->
                  pm.shape rv = pm.datasize (add_idxs data)) /\
    (forall v : list R,
       length v = pm.datasize (add_idxs data) ->
       pm.take v (col_idxs (add_idxs data))
       = Ok (map (fun r =>
                    nth (Z.to_nat (if (idxs r <? 0)%Z
                                   then Z.of_nat (length v) + idxs r
                                   else idxs r)%Z) v 0%R)
                 (add_idxs data))) /\
    ((Z.of_nat (length data) <= 2 ^ 31)%Z ->
     pm.datasize (add_idxs data) = length (nodup Z.eq_dec (map drug data)) /\
     forall r, In r (add_idxs data) ->
       (0 <= idxs r < Z.of_nat (pm.datasize (add_idxs data)))%Z).
Proof.
  intros data Hne. pose proof (idxs_valid data) as Hv.
  split; [|split; [|split]].
  - intros r Hr. rewrite forallb_forall in Hv.
    assert (H : pm.valid_index (pm.datasize (add_idxs data)) (idxs r) = true)
      by (apply Hv; unfold col_idxs; apply in_map; exact Hr).
    split; [exact H|]. unfold pm.valid_index in H.
    apply andb_true_iff in H. rewrite Z.leb_le, Z.ltb_lt in H. exact H.
  - exists (pm.declared (add_idxs data)).
    split; [apply model_add_idxs; exact Hne|].
    intros rv [<-|[<-|[<-|[]]]]; reflexivity.
  - intros v L. unfold pm.take. rewrite L, Hv.
    unfold col_idxs. rewrite map_map. f_equal. apply map_ext. intros r.
    rewrite <- L. reflexivity.
  - intros Hsmall. destruct (idxs_dense data Hsmall) as [E D].
    split; [exact D|]. intros r Hr.
    rewrite D, <- length_unique. apply fit_transform_range.
    rewrite <- E. unfold col_idxs. apply in_map. exact Hr.
Qed.

Lemma lookups_in_bounds_witness :
  pm.datasize (add_idxs Examples.drug_1_missing) = 2 /\
  (forall r, In r (add_idxs Examples.drug_1_missing) ->
             (0 <= idxs r < 2)%Z) /\
  pm.take [5; 6]%R (col_idxs (add_idxs Examples.drug_1_missing))
  = Ok [5; 6]%R.
Proof.
  destruct (lookups_in_bounds Examples.drug_1_missing)
    as (_ & _ & Ht & H).
  - discriminate.
  - destruct H as [D Hr]; [simpl; lia|].
    split; [exact D|]. split; [exact Hr|].
    apply (Ht [5; 6]%R). reflexivity.
Defined.

(** ** The generated frame, column by column *)

Lemma data_columns (grid ic50s : list Z) (beta : Z) (z : nat -> nat -> R)
      (rows : list Row) :
  Generator.data grid ic50s beta z = Ok rows ->
  map concentrations rows = map IZR (Generator.concentrations_col grid ic50s)
  /\ map measurements rows
     = np.flatten_F (Generator.y_noisy grid ic50s beta z)
  /\ map drug rows = Generator.drugs grid ic50s
  /\ length rows = length ic50s * length grid.
Proof.
  intros E. unfold Generator.data in E.
  destruct (from_columns_ok
              (map IZR (Generator.concentrations_col grid ic50s))
              (np.flatten_F (Generator.y_noisy grid ic50s beta z))
              (Generator.drugs grid ic50s))
    as (rows' & E' & Hc & Hm & Hd).
  { rewrite length_map, length_flatten_y_noisy, length_concentrations_col.
    reflexivity. }
  { rewrite length_map, length_drugs, length_concentrations_col.
    reflexivity. }
  rewrite E in E'. injection E' as <-.
  repeat split; try assumption.
  rewrite <- (length_map drug), Hd. apply length_drugs.
Qed.

Lemma In_drugs (grid ic50s : list Z) (v : Z) :
  In v (Generator.drugs grid ic50s) <->
  grid <> [] /\ (0 <= v < Z.of_nat (length ic50s))%Z.
Proof.
  unfold Generator.drugs. rewrite in_flat_map. split.
  - intros (g & Hg & Hv). apply in_seq in Hg.
    destruct grid as [|c grid]; [simpl in Hv; tauto|].
    apply repeat_spec in Hv. subst v. split; [discriminate | lia].
  - intros [Hn Hv]. exists (Z.to_nat v). split; [apply in_seq; lia|].
    destruct grid as [|c grid]; [congruence|].
    simpl. left. lia.
Qed.

Lemma length_filter_map {A B} (f : B -> bool) (g : A -> B) (l : list A) :
  length (filter (fun x => f (g x)) l) = length (filter f (map g l)).
Proof.
  induction l as [|x l IH]; simpl; [reflexivity|].
  destruct (f (g x)); simpl; rewrite IH; reflexivity.
Qed.

Lemma filter_repeat_eqb (a d : Z) (n : nat) :
  filter (fun x => (x =? d)%Z) (repeat a n)
  = if (a =? d)%Z then repeat a n else [].
Proof.
  induction n as [|n IH]; simpl; [destruct (a =? d)%Z; reflexivity|].
  rewrite IH. destruct (a =? d)%Z; reflexivity.
Qed.

Lemma count_in_blocks (d : Z) (n s k : nat) :
  length (filter (fun x => (x =? d)%Z)
                 (flat_map (fun i => repeat (Z.of_nat i) n) (seq s k)))
  = if ((Z.of_nat s <=? d) && (d <? Z.of_nat (s + k)))%Z then n else 0.
Proof.
  revert s; induction k as [|k IH]; intros s.
  - simpl. destruct (Z.leb_spec (Z.of_nat s) d);
      destruct (Z.ltb_spec d (Z.of_nat (s + 0))); simpl; try reflexivity.
    lia.
  - cbn [seq flat_map]. rewrite filter_app, length_app, IH, filter_repeat_eqb.
    destruct (Z.eqb_spec (Z.of_nat s) d);
      destruct (Z.leb_spec (Z.of_nat (S s)) d);
      destruct (Z.ltb_spec d (Z.of_nat (S s + k)));
      destruct (Z.leb_spec (Z.of_nat s) d);
      destruct (Z.ltb_spec d (Z.of_nat (s + S k)));
      simpl; rewrite ?repeat_length; lia.
Qed.


(** ** Input validation *)

Lemma drug_group_empty (d : Z) (data : list Row) :
  drug_group d data = [] <-> ~ In d (map drug data).
Proof.
  unfold drug_group. induction data as [|r data IH]; simpl; [tauto|].
  destruct (Z.eqb_spec (drug r) d) as [E|E].
  - split; [discriminate | intros H; exfalso; apply H; auto].
  - rewrite IH. tauto.
Qed.

Lemma model_never_InputError (data : list IRow) :
  pm.model data <> Error "InputError".
Proof.
  rewrite model_spec.
  destruct (Nat.eqb (pm.datasize data) 0); [discriminate|].
  destruct (forallb (pm.valid_index (pm.datasize data)) (col_idxs data));
    discriminate.
Qed.




(** C9, as stated, fails: a frame with an observation at concentration [-5]
    is built and its model declared without any error. *)
Lemma negative_concentration_not_rejected :
  pd.from_columns [(-5)%R; 0%R] [1%R; 1%R] [0%Z; 0%Z]
    = Ok Examples.negative_concentration /\
  In {| concentrations := -5; measurements := 1; drug := 0 |}
     Examples.negative_concentration /\
  (-5 < 0)%R /\
  pm.model (add_idxs Examples.negative_concentration)
    = Ok (pm.declared (add_idxs Examples.negative_concentration)) /\
  pm.model (add_idxs Examples.negative_concentration) <> Error "InputError".
Proof.
  split; [reflexivity|].
  split; [left; reflexivity|].
  split; [lra|].
  split; [reflexivity|]. apply model_never_InputError.
Qed.

(** C9, amended: concentrations are not validated.  Whatever their signs,
    three columns of one length, not zero, are assembled into a frame that
    keeps every concentration as given, zero included, and the model is
    then declared over exactly those concentrations; neither step raises
    InputError. *)
Theorem concentrations_not_validated :
  forall (cs ms : list R) (ds : list Z),
    cs <> [] ->
    length ms = length cs ->
    length ds = length cs ->
    exists rows,
      pd.from_columns cs ms ds = Ok rows /\
      map concentrations rows = cs /\
      col_concentrations (add_idxs rows) = cs /\
      pm.model (add_idxs rows) = Ok (pm.declared (add_idxs rows)) /\
      pm.measurements (add_idxs rows)
        = pm.Div (pm.Take (pm.RV "beta") (col_idxs (add_idxs rows)))
            (pm.Add (pm.Int 1)
               (pm.Exp (pm.Sub (pm.Array cs)
                               (pm.Take (pm.RV "IC50")
                                        (col_idxs (add_idxs rows)))))) /\
      pm.model (add_idxs rows) <> Error "InputError".
Proof.
  intros cs ms ds Hne Hm Hd.
  destruct (from_columns_ok cs ms ds Hm Hd) as (rows & E & Hc & _ & _).
  assert (Hrows : rows <> [])
    by (intros ->; apply Hne; rewrite <- Hc; reflexivity).
  assert (Hcol : col_concentrations (add_idxs rows) = cs).
  { unfold col_concentrations.
    rewrite <- (map_map row concentrations), map_row_add_idxs. exact Hc. }
  exists rows. split; [exact E|]. split; [exact Hc|]. split; [exact Hcol|].
  split; [apply model_add_idxs; exact Hrows|].
  split; [unfold pm.measurements; rewrite Hcol; reflexivity|].
  apply model_never_InputError.
Qed.

Lemma concentrations_not_validated_witness :
  exists rows,
    pd.from_columns [(-5)%R; 0%R] [1%R; 1%R] [0%Z; 0%Z] = Ok rows /\
    col_concentrations (add_idxs rows) = [(-5)%R; 0%R] /\
    pm.model (add_idxs rows) = Ok (pm.declared (add_idxs rows)).
Proof.
  destruct (concentrations_not_validated
              [(-5)%R; 0%R] [1%R; 1%R] [0%Z; 0%Z])
    as (rows & E & _ & Hc & Hm & _).
  - discriminate.
  - reflexivity.
  - reflexivity.
  - exists rows. split; [exact E|]. split; [exact Hc | exact Hm].
Defined.

(** ** The response in floating point *)








(** ** Inference *)

(** C8: the inference cell asks for 10,000 draws from the Metropolis
    sampler started at the MAP point, and both the trace plot and the
    summary receive the trace without its first 5,000 draws: the 5,000
    remaining draws, draw [i] of the slice being draw [5000 + i] of the
    trace. *)
Theorem inference_call_and_burn_in :
  forall (sample : pm.Model -> Inference.sample_args -> list pm.point),
    (forall m a, length (sample m a) = Z.to_nat (Inference.draws a)) ->
    forall m : pm.Model,
      Inference.sample_call
        = {| Inference.draws := 10000;
             Inference.step := Inference.Metropolis;
             Inference.start := Inference.find_MAP |} /\
      Inference.trace sample m = sample m Inference.sample_call /\
      Z.of_nat (length (Inference.trace sample m)) = 10000%Z /\
      Inference.traceplot_input sample m
        = skipn (Z.to_nat 5000) (Inference.trace sample m) /\
      Inference.summary_input sample m
        = skipn (Z.to_nat 5000) (Inference.trace sample m) /\
      Z.of_nat (length (Inference.summary_input sample m)) = 5000%Z /\
      Z.of_nat (length (Inference.traceplot_input sample m)) = 5000%Z /\
      forall i,
        nth_error (Inference.summary_input sample m) i
        = nth_error (Inference.trace sample m) (Z.to_nat 5000 + i).
Proof.
  intros sample Hlen m.
  assert (L : length (Inference.trace sample m) = Z.to_nat 10000).
  { unfold Inference.trace. rewrite Hlen. reflexivity. }
  assert (S5 : Inference.summary_input sample m
               = skipn (Z.to_nat 5000) (Inference.trace sample m))
    by reflexivity.
  split; [reflexivity|]. split; [reflexivity|].
  split; [rewrite L; lia|].
  split; [reflexivity|]. split; [exact S5|].
  split; [|split].
  - rewrite S5, length_skipn, L. lia.
  - change (Inference.traceplot_input sample m)
      with (Inference.summary_input sample m).
    rewrite S5, length_skipn, L. lia.
  - intros i. rewrite S5. apply nth_error_skipn.
Qed.

Lemma inference_call_and_burn_in_witness :
  Z.of_nat (length (Inference.summary_input Examples.constant_sampler
                      (pm.declared (add_idxs Examples.drug_1_missing))))
  = 5000%Z.
Proof.
  destruct (inference_call_and_burn_in Examples.constant_sampler)
    with (m := pm.declared (add_idxs Examples.drug_1_missing))
    as (_ & _ & _ & _ & _ & H & _).
  - intros m a. apply repeat_length.
  - exact H.
Defined.

(** * Further properties of the notebook's code *)

(** ** [np.arange] *)

Lemma arange_nth_error (start stop step : Z) (i : nat) (v : Z) :
  nth_error (np.arange start stop step) i = Some v ->
  v = (start + Z.of_nat i * step)%Z.
Proof.
  unfold np.arange. rewrite nth_error_map.
  destruct (nth_error (seq 0 _) i) as [k|] eqn:E; [|discriminate].
  intros [= <-].
  assert (Hi : i < length (seq 0 (Z.to_nat (- ((start - stop) / step)))))
    by (apply nth_error_Some; rewrite E; discriminate).
  rewrite length_seq in Hi.
  apply (nth_error_nth _ _ 0%nat) in E.
  rewrite seq_nth in E by exact Hi. subst k. reflexivity.
Qed.

(** For a positive step and arguments of the 32-bit range,
    [np.arange(start, stop, step)] holds exactly the values of the half-open
    interval from [start] to [stop] that lie a multiple of [step] above
    [start], in increasing order: the value at position [i] is
    [start + i * step]. *)
Theorem arange_members :
  forall start stop step : Z,
    (- 2 ^ 31 <= start < 2 ^ 31)%Z ->
    (- 2 ^ 31 <= stop < 2 ^ 31)%Z ->
    (0 < step < 2 ^ 31)%Z ->
    (forall v, In v (np.arange start stop step) <->
               (start <= v < stop)%Z /\ ((v - start) mod step = 0)%Z) /\
    (forall i v, nth_error (np.arange start stop step) i = Some v ->
                 v = (start + Z.of_nat i * step)%Z) /\
    (stop <= start -> np.arange start stop step = [])%Z.
Proof.
  intros start stop step _ _ [Hs _].
  pose proof (Z.div_mod (start - stop) step ltac:(lia)) as Hdm.
  pose proof (Z.mod_pos_bound (start - stop) step Hs) as Hmb.
  split; [|split].
  - intros v. unfold np.arange. rewrite in_map_iff. split.
    + intros (i & <- & Hi). apply in_seq in Hi.
      split; [nia|].
      replace (start + Z.of_nat i * step - start)%Z
        with (Z.of_nat i * step)%Z by lia.
      apply Z.mod_mul. lia.
    + intros [Hv Hm].
      apply Z.mod_divide in Hm; [|lia]. destruct Hm as [q Hq].
      exists (Z.to_nat q). split; [nia|]. apply in_seq. nia.
  - apply arange_nth_error.
  - intros Hle. unfold np.arange.
    replace (Z.to_nat (- ((start - stop) / step))) with 0%nat; [reflexivity|].
    assert (0 <= (start - stop) / step)%Z by (apply Z.div_pos; lia). lia.
Qed.

Lemma arange_members_witness :
  In 42%Z (np.arange 40 51 1) /\ ~ In 51%Z (np.arange 40 51 1).
Proof.
  destruct (arange_members 40 51 1) as (H & _ & _); [lia | lia | lia |].
  split.
  - apply H. split; [lia | reflexivity].
  - intros Hin. apply H in Hin. lia.
Defined.

(** ** Frame assembly *)

Lemma from_columns_mismatch (cs ms : list R) (ds : list Z) :
  ~ (length ms = length cs /\ length ds = length cs) ->
  pd.from_columns cs ms ds = Error "ValueError".
Proof.
  revert ms ds; induction cs as [|c cs IH]; intros [|m ms] [|d ds] H;
    simpl in *; try reflexivity.
  - exfalso. apply H. split; reflexivity.
  - rewrite IH; [reflexivity|]. intros [Hm Hd]. apply H. split; lia.
Qed.

(** When the first column has rows, or all three have none, the three
    columns are assembled into a frame exactly when they have one length;
    the frame then has that many rows and gives the columns back unchanged.
    Columns of different lengths raise ValueError, and no other error is
    possible. *)
Theorem from_columns_result :
  forall (cs ms : list R) (ds : list Z),
    cs <> [] \/ (ms = [] /\ ds = []) ->
    ((length ms = length cs /\ length ds = length cs) <->
     exists rows, pd.from_columns cs ms ds = Ok rows) /\
    (forall rows, pd.from_columns cs ms ds = Ok rows ->
       length rows = length cs /\
       map concentrations rows = cs /\
       map measurements rows = ms /\
       map drug rows = ds) /\
    (forall e, pd.from_columns cs ms ds = Error e -> e = "ValueError").
Proof.
  intros cs ms ds _.
  assert (Hdec : (length ms = length cs /\ length ds = length cs) \/
                 ~ (length ms = length cs /\ length ds = length cs)).
  { destruct (Nat.eq_dec (length ms) (length cs));
      destruct (Nat.eq_dec (length ds) (length cs)); tauto. }
  split; [|split].
  - split.
    + intros [Hm Hd].
      destruct (from_columns_ok cs ms ds Hm Hd) as (rows & E & _).
      exists rows. exact E.
    + intros (rows & E). destruct Hdec as [H|H]; [exact H|].
      rewrite (from_columns_mismatch cs ms ds H) in E. discriminate.
  - intros rows E. destruct Hdec as [[Hm Hd]|H].
    + destruct (from_columns_ok cs ms ds Hm Hd)
        as (rows' & E' & Hc & Hm' & Hd').
      rewrite E in E'. injection E' as <-.
      split; [|tauto]. rewrite <- Hc. symmetry. apply length_map.
    + rewrite (from_columns_mismatch cs ms ds H) in E. discriminate.
  - intros e E. destruct Hdec as [[Hm Hd]|H].
    + destruct (from_columns_ok cs ms ds Hm Hd) as (rows' & E' & _).
      rewrite E in E'. discriminate.
    + rewrite (from_columns_mismatch cs ms ds H) in E.
      injection E as <-. reflexivity.
Qed.

Lemma from_columns_result_witness :
  (exists rows, pd.from_columns [1; 2]%R [3; 4]%R [0; 1]%Z = Ok rows) /\
  pd.from_columns [1; 2]%R [3]%R [0; 1]%Z = Error "ValueError".
Proof.
  split.
  - destruct (from_columns_result [1; 2]%R [3; 4]%R [0; 1]%Z) as (H & _).
    + left. discriminate.
    + apply H. split; reflexivity.
  - destruct (from_columns_result [1; 2]%R [3]%R [0; 1]%Z) as (_ & _ & H).
    + left. discriminate.
    + destruct (pd.from_columns [1; 2]%R [3]%R [0; 1]%Z) as [rows|e] eqn:E.
      * discriminate E.
      * rewrite (H e eq_refl). reflexivity.
Defined.

(** ** The cast to 32 bits *)

(** [.astype("int32")] always yields a value of the signed 32-bit range that
    differs from its argument by a multiple of [2^32]; it leaves exactly the
    values of that range unchanged, and casting twice is casting once. *)
Theorem astype_int32_wraps :
  forall v : Z,
    (- 2 ^ 31 <= astype_int32 v < 2 ^ 31)%Z /\
    ((astype_int32 v - v) mod 2 ^ 32 = 0)%Z /\
    (astype_int32 v = v <-> (- 2 ^ 31 <= v < 2 ^ 31)%Z) /\
    astype_int32 (astype_int32 v) = astype_int32 v.
Proof.
  intros v. pose proof (astype_int32_range v) as Hr.
  assert (Hfix : forall u, (- 2 ^ 31 <= u < 2 ^ 31)%Z -> astype_int32 u = u).
  { intros u Hu. unfold astype_int32. rewrite Z.mod_small; lia. }
  split; [exact Hr|]. split; [|split].
  - unfold astype_int32.
    pose proof (Z.div_mod (v + 2 ^ 31) (2 ^ 32) ltac:(lia)) as Hdm.
    replace ((v + 2 ^ 31) mod 2 ^ 32 - 2 ^ 31 - v)%Z
      with (- ((v + 2 ^ 31) / 2 ^ 32) * 2 ^ 32)%Z by lia.
    apply Z.mod_mul. lia.
  - split; [intros <-; exact Hr | apply Hfix].
  - apply Hfix. exact Hr.
Qed.

(** ** The label encoder *)

Lemma index_of_nonneg (x : Z) (cs : list Z) : (0 <= sklearn.index_of x cs)%Z.
Proof.
  induction cs as [|c cs IH]; cbn [sklearn.index_of]; [lia|].
  destruct (x =? c)%Z; lia.
Qed.

Lemma index_of_round_trip (x : Z) (cs : list Z) :
  In x cs -> nth_error cs (Z.to_nat (sklearn.index_of x cs)) = Some x.
Proof.
  induction cs as [|c cs IH]; [simpl; tauto|].
  intros H. cbn [sklearn.index_of].
  destruct (Z.eqb_spec x c) as [->|Hne]; [reflexivity|].
  destruct H as [->|H]; [congruence|].
  pose proof (index_of_nonneg x cs) as Hp.
  replace (Z.to_nat (1 + sklearn.index_of x cs))
    with (S (Z.to_nat (sklearn.index_of x cs))) by lia.
  simpl. apply IH. exact H.
Qed.

Lemma index_of_sorted_lt (cs : list Z) (a b : Z) :
  StronglySorted Z.lt cs -> In a cs -> In b cs ->
  (sklearn.index_of a cs < sklearn.index_of b cs <-> a < b)%Z.
Proof.
  induction 1 as [|c cs Hs IH Hc]; [simpl; tauto|].
  rewrite Forall_forall in Hc.
  intros Ha Hb. cbn [sklearn.index_of].
  pose proof (index_of_nonneg a cs). pose proof (index_of_nonneg b cs).
  destruct (Z.eqb_spec a c) as [->|Na]; destruct (Z.eqb_spec b c) as [->|Nb].
  - lia.
  - destruct Hb as [->|Hb]; [congruence|]. specialize (Hc _ Hb). lia.
  - destruct Ha as [->|Ha]; [congruence|]. specialize (Hc _ Ha). lia.
  - destruct Ha as [->|Ha]; [congruence|].
    destruct Hb as [->|Hb]; [congruence|].
    specialize (IH Ha Hb). lia.
Qed.

(** [classes_], the encoder's table, is the strictly increasing list of the
    labels present in the column: no duplicates, nothing added, nothing
    lost, so it has as many entries as there are distinct labels. *)
Theorem classes_sorted_distinct :
  forall y : list Z,
    StronglySorted Z.lt (sklearn.unique y) /\
    NoDup (sklearn.unique y) /\
    (forall v, In v (sklearn.unique y) <-> In v y) /\
    length (sklearn.unique y) = length (nodup Z.eq_dec y) /\
    length (sklearn.unique y) <= length y.
Proof.
  intros y.
  split; [apply unique_sorted|]. split; [apply unique_NoDup|].
  split; [apply unique_In|]. split; [apply length_unique|].
  rewrite length_unique. apply length_nodup_le.
Qed.

(** Decoding inverts encoding: the code given to the label of row [i] is a
    position of [classes_], and the class at that position is the label. *)
Theorem fit_transform_round_trip :
  forall (y : list Z) (i : nat) (a : Z),
    nth_error y i = Some a ->
    exists c,
      nth_error (sklearn.fit_transform y) i = Some c /\
      (0 <= c < Z.of_nat (length (sklearn.unique y)))%Z /\
      nth_error (sklearn.unique y) (Z.to_nat c) = Some a.
Proof.
  intros y i a Hi.
  assert (Hin : In a (sklearn.unique y))
    by (apply unique_In; eapply nth_error_In; exact Hi).
  exists (sklearn.index_of a (sklearn.unique y)).
  split; [|split].
  - unfold sklearn.fit_transform. rewrite nth_error_map, Hi. reflexivity.
  - apply index_of_bounds. exact Hin.
  - apply index_of_round_trip. exact Hin.
Qed.

Lemma fit_transform_round_trip_witness :
  exists c,
    nth_error (sklearn.fit_transform [7; 3; 7; 5]%Z) 2 = Some c /\
    (0 <= c < Z.of_nat (length (sklearn.unique [7; 3; 7; 5]%Z)))%Z /\
    nth_error (sklearn.unique [7; 3; 7; 5]%Z) (Z.to_nat c) = Some 7%Z.
Proof.
  apply (fit_transform_round_trip [7; 3; 7; 5]%Z 2 7%Z). reflexivity.
Defined.

(** The encoder keeps the order and the identity of labels: two rows get the
    same code exactly when they carry the same label, and the smaller code
    goes to the smaller label. *)
Theorem fit_transform_order :
  forall (y : list Z) (i j : nat) (a b ca cb : Z),
    nth_error y i = Some a ->
    nth_error y j = Some b ->
    nth_error (sklearn.fit_transform y) i = Some ca ->
    nth_error (sklearn.fit_transform y) j = Some cb ->
    (ca = cb <-> a = b) /\ (ca < cb <-> a < b)%Z.
Proof.
  intros y i j a b ca cb Ha Hb Hca Hcb.
  unfold sklearn.fit_transform in Hca, Hcb.
  rewrite nth_error_map, Ha in Hca. rewrite nth_error_map, Hb in Hcb.
  injection Hca as <-. injection Hcb as <-.
  assert (Ia : In a (sklearn.unique y))
    by (apply unique_In; eapply nth_error_In; exact Ha).
  assert (Ib : In b (sklearn.unique y))
    by (apply unique_In; eapply nth_error_In; exact Hb).
  pose proof (index_of_sorted_lt (sklearn.unique y) a b
                (unique_sorted y) Ia Ib) as Hab.
  pose proof (index_of_sorted_lt (sklearn.unique y) b a
                (unique_sorted y) Ib Ia) as Hba.
  split; [|exact Hab]. split; [lia | intros ->; reflexivity].
Qed.

Lemma fit_transform_order_witness :
  (1 = 2 <-> 5 = 7)%Z /\ (1 < 2 <-> 5 < 7)%Z.
Proof.
  apply (fit_transform_order [7; 3; 7; 5]%Z 3 0 5%Z 7%Z 1%Z 2%Z);
    reflexivity.
Defined.

(** ** The [idxs] column of a frame *)

Lemma combine_map_self {A B} (f : A -> B) (l : list A) :
  combine l (map f l) = map (fun x => (x, f x)) l.
Proof. induction l; simpl; [reflexivity | f_equal; assumption]. Qed.

(** Each row gets its index from its own label and the table of classes. *)
Lemma add_idxs_map (data : list Row) :
  add_idxs data
  = map (fun r =>
           {| row := r;
              idxs := astype_int32
                        (sklearn.index_of
                           (drug r) (sklearn.unique (map drug data))) |})
        data.
Proof.
  unfold add_idxs, sklearn.fit_transform.
  rewrite !map_map, combine_map_self, map_map. reflexivity.
Qed.

(** Adding the [idxs] column keeps the rows and their order.  On a frame of
    at most [2^31] rows, two rows have the same index exactly when they are
    observations of the same drug, and indices are ordered as the drug
    labels are. *)
Theorem idxs_identify_drugs :
  forall data : list Row,
    (Z.of_nat (length data) <= 2 ^ 31)%Z ->
    length (add_idxs data) = length data /\
    map row (add_idxs data) = data /\
    forall r1 r2, In r1 (add_idxs data) -> In r2 (add_idxs data) ->
      (idxs r1 = idxs r2 <-> drug (row r1) = drug (row r2)) /\
      (idxs r1 < idxs r2 <-> drug (row r1) < drug (row r2))%Z.
Proof.
  intros data Hsmall.
  split; [rewrite <- (map_row_add_idxs data) at 2; symmetry; apply length_map|].
  split; [apply map_row_add_idxs|].
  intros r1 r2 H1 H2.
  pose proof (length_nodup_le (map drug data)) as Hle.
  rewrite length_map, <- length_unique in Hle.
  rewrite add_idxs_map in H1, H2.
  apply in_map_iff in H1. destruct H1 as (x1 & <- & Hx1).
  apply in_map_iff in H2. destruct H2 as (x2 & <- & Hx2).
  cbn [row idxs].
  assert (I1 : In (drug x1) (sklearn.unique (map drug data)))
    by (apply unique_In, in_map; exact Hx1).
  assert (I2 : In (drug x2) (sklearn.unique (map drug data)))
    by (apply unique_In, in_map; exact Hx2).
  pose proof (index_of_bounds _ _ I1) as B1.
  pose proof (index_of_bounds _ _ I2) as B2.
  rewrite !astype_int32_small by lia.
  pose proof (index_of_sorted_lt _ _ _ (unique_sorted (map drug data)) I1 I2).
  pose proof (index_of_sorted_lt _ _ _ (unique_sorted (map drug data)) I2 I1).
  split; [|assumption]. split; [lia | intros ->; reflexivity].
Qed.

Lemma idxs_identify_drugs_witness :
  map row (add_idxs Examples.drug_1_missing) = Examples.drug_1_missing.
Proof.
  destruct (idxs_identify_drugs Examples.drug_1_missing) as (_ & H & _).
  - simpl. lia.
  - exact H.
Defined.

(** ** The generated frame *)

(** The generated frame is balanced: every drug of the study has exactly one
    observation per grid point, and no other drug label occurs in it. *)
Theorem generated_groups_balanced :
  forall (grid ic50s : list Z) (beta : Z) (z : nat -> nat -> R)
         (rows : list Row),
    Generator.data grid ic50s beta z = Ok rows ->
    (forall g, g < length ic50s ->
       length (drug_group (Z.of_nat g) rows) = length grid) /\
    (forall d, (d < 0 \/ Z.of_nat (length ic50s) <= d)%Z ->
       drug_group d rows = []).
Proof.
  intros grid ic50s beta z rows E.
  destruct (data_columns grid ic50s beta z rows E) as (_ & _ & Hd & _).
  assert (C : forall d,
             length (drug_group d rows)
             = if ((0 <=? d) && (d <? Z.of_nat (length ic50s)))%Z
               then length grid else 0).
  { intros d. unfold drug_group.
    rewrite (length_filter_map (fun x => (x =? d)%Z) drug), Hd.
    unfold Generator.drugs. rewrite count_in_blocks. reflexivity. }
  split.
  - intros g Hg. rewrite C.
    destruct (Z.leb_spec 0 (Z.of_nat g)); [|lia].
    destruct (Z.ltb_spec (Z.of_nat g) (Z.of_nat (length ic50s))); [|lia].
    reflexivity.
  - intros d Hd'. apply length_zero_iff_nil. rewrite C.
    destruct (Z.leb_spec 0 d);
      destruct (Z.ltb_spec d (Z.of_nat (length ic50s)));
      simpl; try reflexivity.
    lia.
Qed.

Lemma generated_groups_balanced_witness :
  exists rows,
    Generator.data Generator.x_concs Generator.ic50_true
                   Generator.beta_true (fun _ _ => 0%R) = Ok rows /\
    length (drug_group 1 rows) = 48.
Proof.
  eexists. split; [reflexivity|].
  refine (proj1 (generated_groups_balanced
                   Generator.x_concs Generator.ic50_true Generator.beta_true
                   (fun _ _ => 0%R) _ eq_refl) 1 _).
  simpl. lia.
Defined.

(** Two strictly increasing lists with the same members are equal. *)
Lemma sorted_ext (l1 l2 : list Z) :
  StronglySorted Z.lt l1 -> StronglySorted Z.lt l2 ->
  (forall v, In v l1 <-> In v l2) -> l1 = l2.
Proof.
  intros H1; revert l2; induction H1 as [|a l1 S1 IH F1]; intros l2 H2 Hm.
  - destruct l2 as [|b l2]; [reflexivity|].
    exfalso. apply (Hm b). left. reflexivity.
  - destruct H2 as [|b l2 S2 F2].
    + exfalso. apply (Hm a). left. reflexivity.
    + rewrite Forall_forall in F1, F2.
      assert (a = b).
      { destruct (proj1 (Hm a) (or_introl eq_refl)) as [->|Ha];
          [reflexivity|].
        destruct (proj2 (Hm b) (or_introl eq_refl)) as [->|Hb];
          [reflexivity|].
        specialize (F1 _ Hb). specialize (F2 _ Ha). lia. }
      subst b. f_equal. apply IH; [exact S2|].
      intros v. split; intros Hv.
      * destruct (proj1 (Hm v) (or_intror Hv)) as [->|Hv']; [|exact Hv'].
        specialize (F1 _ Hv). lia.
      * destruct (proj2 (Hm v) (or_intror Hv)) as [->|Hv']; [|exact Hv'].
        specialize (F2 _ Hv). lia.
Qed.

Lemma sorted_range (s k : nat) :
  StronglySorted Z.lt (map Z.of_nat (seq s k)).
Proof.
  revert s; induction k as [|k IH]; intros s; simpl; constructor.
  - apply IH.
  - apply Forall_forall. intros v Hv. apply in_map_iff in Hv.
    destruct Hv as (i & <- & Hi). apply in_seq in Hi. lia.
Qed.

Lemma index_of_range (k g : nat) :
  g < k -> sklearn.index_of (Z.of_nat g) (map Z.of_nat (seq 0 k)) = Z.of_nat g.
Proof.
  intros Hg.
  rewrite <- (index_of_nth (map Z.of_nat (seq 0 k)) g) at 2.
  - f_equal. rewrite (nth_indep _ 0%Z (Z.of_nat 0)), map_nth, seq_nth;
      [reflexivity | exact Hg | rewrite length_map, length_seq; exact Hg].
  - apply NoDup_range.
  - rewrite length_map, length_seq. exact Hg.
Qed.

(** The encoder leaves the generator's labels as they are. *)
Lemma fit_transform_drugs (grid ic50s : list Z) :
  sklearn.fit_transform (Generator.drugs grid ic50s)
  = Generator.drugs grid ic50s.
Proof.
  destruct grid as [|c grid].
  - assert (E : Generator.drugs [] ic50s = []).
    { destruct (Generator.drugs [] ic50s) as [|v l] eqn:E; [reflexivity|].
      assert (H : In v (Generator.drugs [] ic50s))
        by (rewrite E; left; reflexivity).
      apply In_drugs in H. tauto. }
    rewrite E. reflexivity.
  - unfold sklearn.fit_transform.
    replace (sklearn.unique (Generator.drugs (c :: grid) ic50s))
      with (map Z.of_nat (seq 0 (length ic50s))).
    + rewrite <- (map_id (Generator.drugs (c :: grid) ic50s)) at 2.
      apply map_ext_in. intros v Hv. apply In_drugs in Hv.
      destruct Hv as [_ Hv].
      replace v with (Z.of_nat (Z.to_nat v)) by lia.
      apply index_of_range. lia.
    + apply sorted_ext; [apply sorted_range | apply unique_sorted|].
      intros v. rewrite unique_In, In_drugs, In_range.
      split; [intros H; split; [discriminate | exact H] | tauto].
Qed.

Lemma generated_col_idxs (grid ic50s : list Z) (beta : Z)
      (z : nat -> nat -> R) (rows : list Row) :
  Generator.data grid ic50s beta z = Ok rows ->
  (Z.of_nat (length ic50s) <= 2 ^ 31)%Z ->
  col_idxs (add_idxs rows) = Generator.drugs grid ic50s.
Proof.
  intros E Hk.
  destruct (data_columns grid ic50s beta z rows E) as (_ & _ & Hd & _).
  rewrite col_idxs_add_idxs, Hd, fit_transform_drugs.
  rewrite <- (map_id (Generator.drugs grid ic50s)) at 2.
  apply map_ext_in. intros v Hv. apply In_drugs in Hv.
  apply astype_int32_small. lia.
Qed.

Lemma generated_datasize (grid ic50s : list Z) (beta : Z)
      (z : nat -> nat -> R) (rows : list Row) :
  Generator.data grid ic50s beta z = Ok rows ->
  (Z.of_nat (length ic50s) <= 2 ^ 31)%Z ->
  grid <> [] ->
  pm.datasize (add_idxs rows) = length ic50s.
Proof.
  intros E Hk Hn. unfold pm.datasize.
  rewrite (generated_col_idxs grid ic50s beta z rows E Hk).
  apply Nat.le_antisymm.
  - apply distinct_at_most. intros v Hv. apply In_drugs in Hv. tauto.
  - apply distinct_at_least. intros v Hv. apply In_drugs. tauto.
Qed.

(** On the generated frame the encoder changes nothing: the [idxs] column
    is the [drug] column, so the parameter component of an observation is
    the one of its drug; with a non-empty grid the parameter vectors have
    one component per drug of the study, and with an empty grid the frame
    has no rows. *)
Theorem generated_idxs_are_drugs :
  forall (grid ic50s : list Z) (beta : Z) (z : nat -> nat -> R)
         (rows : list Row),
    Generator.data grid ic50s beta z = Ok rows ->
    (Z.of_nat (length ic50s) <= 2 ^ 31)%Z ->
    col_idxs (add_idxs rows) = map drug rows /\
    (grid <> [] -> pm.datasize (add_idxs rows) = length ic50s) /\
    (grid = [] -> rows = []).
Proof.
  intros grid ic50s beta z rows E Hk.
  destruct (data_columns grid ic50s beta z rows E) as (_ & _ & Hd & Hl).
  split; [rewrite Hd; apply (generated_col_idxs grid ic50s beta z rows E Hk)|].
  split; [apply (generated_datasize grid ic50s beta z rows E Hk)|].
  intros ->. simpl in Hl. rewrite Nat.mul_0_r in Hl.
  apply length_zero_iff_nil. exact Hl.
Qed.

Lemma generated_idxs_are_drugs_witness :
  exists rows,
    Generator.data Generator.x_concs Generator.ic50_true
                   Generator.beta_true (fun _ _ => 0%R) = Ok rows /\
    col_idxs (add_idxs rows) = map drug rows /\
    pm.datasize (add_idxs rows) = 3.
Proof.
  eexists. split; [reflexivity|].
  destruct (generated_idxs_are_drugs
              Generator.x_concs Generator.ic50_true Generator.beta_true
              (fun _ _ => 0%R) _ eq_refl) as (H1 & H2 & _).
  - simpl. lia.
  - split; [exact H1|]. apply H2. discriminate.
Defined.

(** ** The model at the generator's parameters *)

Lemma flat_map_nil {A B} (l : list A) : flat_map (fun _ : A => @nil B) l = [].
Proof. induction l; simpl; auto. Qed.

Lemma index_repeat (a : R) (k g : nat) :
  g < k -> pm.index (repeat a k) (Z.of_nat g) = a.
Proof.
  intros Hg. unfold pm.index, pm.normalize_index.
  destruct (Z.ltb_spec (Z.of_nat g) 0); [lia|].
  rewrite Nat2Z.id, (nth_indep _ 0%R a) by (rewrite repeat_length; exact Hg).
  apply nth_repeat.
Qed.

Lemma index_map_IZR (l : list Z) (g : nat) :
  pm.index (map IZR l) (Z.of_nat g) = IZR (nth g l 0%Z).
Proof.
  unfold pm.index, pm.normalize_index.
  destruct (Z.ltb_spec (Z.of_nat g) 0); [lia|].
  rewrite Nat2Z.id. apply (map_nth IZR l 0%Z g).
Qed.

Lemma length_flatten_y_true (grid ic50s : list Z) (beta : Z) :
  length (np.flatten_F (Generator.y_true grid ic50s beta))
  = length ic50s * length grid.
Proof.
  unfold np.flatten_F. simpl.
  apply length_flat_map_blocks. intros g.
  rewrite length_map, length_seq. reflexivity.
Qed.

Lemma nth_error_flatten_y_true (grid ic50s : list Z) (beta : Z) (g j : nat) :
  g < length ic50s -> j < length grid ->
  nth_error (np.flatten_F (Generator.y_true grid ic50s beta))
            (g * length grid + j)
  = Some (np.item (Generator.y_true grid ic50s beta) j g).
Proof.
  intros Hg Hj. unfold np.flatten_F.
  change (np.nrows (Generator.y_true grid ic50s beta)) with (length grid).
  change (np.ncols (Generator.y_true grid ic50s beta)) with (length ic50s).
  rewrite (@nth_error_flat_map_blocks _ _ (length grid))
    by (auto; intros; rewrite length_map, length_seq; reflexivity).
  rewrite nth_error_map.
  rewrite (nth_error_nth' _ 0) by (rewrite length_seq; exact Hj).
  rewrite seq_nth by exact Hj. reflexivity.
Qed.

(** The row of the generated, encoded frame at position [g * n + j]. *)
Lemma generated_row (grid ic50s : list Z) (beta : Z) (z : nat -> nat -> R)
      (rows : list Row) (g j : nat) :
  Generator.data grid ic50s beta z = Ok rows ->
  (Z.of_nat (length ic50s) <= 2 ^ 31)%Z ->
  g < length ic50s -> j < length grid ->
  exists r,
    nth_error (add_idxs rows) (g * length grid + j) = Some r /\
    idxs r = Z.of_nat g /\
    concentrations (row r) = IZR (nth j grid 0%Z) /\
    measurements (row r) = np.item (Generator.y_noisy grid ic50s beta z) j g.
Proof.
  intros E Hk Hg Hj.
  destruct (data_columns grid ic50s beta z rows E) as (Hc & Hm & Hd & Hl).
  pose proof (generated_col_idxs grid ic50s beta z rows E Hk) as Hix.
  pose proof (map_row_add_idxs rows) as Hrow.
  destruct (nth_error (add_idxs rows) (g * length grid + j)) as [r|] eqn:Er.
  - exists r. split; [reflexivity|].
    assert (Ei : nth_error (col_idxs (add_idxs rows)) (g * length grid + j)
                 = Some (idxs r))
      by (unfold col_idxs; rewrite nth_error_map, Er; reflexivity).
    assert (Erow : nth_error rows (g * length grid + j) = Some (row r))
      by (rewrite <- Hrow at 1; rewrite nth_error_map, Er; reflexivity).
    split; [|split].
    + rewrite Hix, (nth_error_drugs grid ic50s g j Hg Hj) in Ei.
      injection Ei as <-. reflexivity.
    + pose proof (nth_error_concentrations_col grid ic50s g j Hg Hj) as Hcc.
      assert (H : nth_error (map concentrations rows) (g * length grid + j)
                  = Some (concentrations (row r)))
        by (rewrite nth_error_map, Erow; reflexivity).
      rewrite Hc, nth_error_map, Hcc in H. injection H as <-. reflexivity.
    + assert (H : nth_error (map measurements rows) (g * length grid + j)
                  = Some (measurements (row r)))
        by (rewrite nth_error_map, Erow; reflexivity).
      rewrite Hm, (nth_error_flatten_y_noisy grid ic50s beta z g j Hg Hj) in H.
      injection H as <-. reflexivity.
  - exfalso. apply nth_error_None in Er.
    rewrite <- (length_map row), Hrow, Hl in Er. nia.
Qed.

(** The model is the generator's own law: at the generator's parameters
    (amplitude [beta_true] and the true IC50 of each drug) the declared mean
    of every observation is the noiseless response [y_true] it was generated
    from, so the observed value exceeds its declared mean by exactly the
    noise term [0.15 * z]. *)
Theorem model_mean_at_true_point :
  forall (grid ic50s : list Z) (beta : Z) (z : nat -> nat -> R)
         (rows : list Row),
    Generator.data grid ic50s beta z = Ok rows ->
    (Z.of_nat (length ic50s) <= 2 ^ 31)%Z ->
    pm.eval (true_point ic50s beta) (pm.measurements (add_idxs rows))
      = Ok (pm.Vector (np.flatten_F (Generator.y_true grid ic50s beta))) /\
    forall g j, g < length ic50s -> j < length grid ->
      nth_error (np.flatten_F (Generator.y_true grid ic50s beta))
                (g * length grid + j)
        = Some (np.item (Generator.y_true grid ic50s beta) j g) /\
      nth_error (pm.observed (pm.y_like (add_idxs rows)))
                (g * length grid + j)
        = Some (np.item (Generator.y_true grid ic50s beta) j g
                + 15 / 100 * z j g)%R.
Proof.
  intros grid ic50s beta z rows E Hk.
  destruct (data_columns grid ic50s beta z rows E) as (Hc & Hm & Hd & Hl).
  split.
  - destruct grid as [|c0 grid0] eqn:Eg.
    + assert (rows = []) as ->
        by (apply length_zero_iff_nil; rewrite Hl; simpl; lia).
      unfold np.flatten_F. simpl. rewrite flat_map_nil. reflexivity.
    + rewrite <- Eg in *.
      assert (Hn : grid <> []) by (rewrite Eg; discriminate).
      pose proof (generated_datasize grid ic50s beta z rows E Hk Hn) as Hsize.
      rewrite (eval_measurements (add_idxs rows) (true_point ic50s beta)
                 (idxs_valid rows)).
      * f_equal. f_equal. apply nth_error_ext. intros i.
        destruct (Nat.lt_ge_cases i (length ic50s * length grid)) as [Hi|Hi].
        -- destruct (block_position_exists _ _ _ Hi) as (g & j & Hg & Hj & ->).
           destruct (generated_row grid ic50s beta z rows g j E Hk Hg Hj)
             as (r & Er & Hi' & Hcr & _).
           rewrite nth_error_map, Er. cbn [option_map].
           rewrite (nth_error_flatten_y_true grid ic50s beta g j Hg Hj).
           f_equal. rewrite Hi', Hcr.
           change (true_point ic50s beta "beta")
             with (repeat (IZR beta) (length ic50s)).
           change (true_point ic50s beta "IC50") with (map IZR ic50s).
           rewrite (index_repeat _ _ _ Hg), index_map_IZR. simpl.
           unfold Generator.response. rewrite minus_IZR. reflexivity.
        -- rewrite (proj2 (nth_error_None _ _)), (proj2 (nth_error_None _ _));
             [reflexivity | rewrite length_flatten_y_true; exact Hi |].
           rewrite length_map, <- (length_map row), map_row_add_idxs, Hl.
           exact Hi.
      * change (true_point ic50s beta "beta")
          with (repeat (IZR beta) (length ic50s)).
        rewrite repeat_length. symmetry. exact Hsize.
      * change (true_point ic50s beta "IC50") with (map IZR ic50s).
        rewrite length_map. symmetry. exact Hsize.
  - intros g j Hg Hj.
    split; [apply nth_error_flatten_y_true; assumption|].
    destruct (generated_row grid ic50s beta z rows g j E Hk Hg Hj)
      as (r & Er & _ & _ & Hmr).
    cbn [pm.observed pm.y_like]. unfold col_measurements.
    rewrite nth_error_map, Er. cbn [option_map]. f_equal.
    rewrite Hmr. simpl. unfold Generator.noise_sd. lra.
Qed.

Lemma model_mean_at_true_point_witness :
  exists rows,
    Generator.data Generator.x_concs Generator.ic50_true
                   Generator.beta_true (fun _ _ => 1%R) = Ok rows /\
    pm.eval (true_point Generator.ic50_true Generator.beta_true)
            (pm.measurements (add_idxs rows))
    = Ok (pm.Vector (np.flatten_F
                       (Generator.y_true Generator.x_concs
                          Generator.ic50_true Generator.beta_true))).
Proof.
  eexists. split; [reflexivity|].
  refine (proj1 (model_mean_at_true_point
                   Generator.x_concs Generator.ic50_true Generator.beta_true
                   (fun _ _ => 1%R) _ eq_refl _)).
  simpl. lia.
Defined.

(** ** The response curve *)

Lemma logistic_between (b d : R) :
  (0 < b)%R -> (0 < b / (1 + exp d) < b)%R.
Proof.
  intros Hb. pose proof (exp_pos d) as He.
  assert (Hd : (0 < 1 + exp d)%R) by lra.
  split.
  - apply Rdiv_lt_0_compat; assumption.
  - apply (Rmult_lt_reg_r (1 + exp d)); [exact Hd|].
    unfold Rdiv. rewrite Rmult_assoc, Rinv_l by lra. nra.
Qed.

Lemma logistic_decreasing (b d d' : R) :
  (0 <= b)%R -> (d <= d')%R -> (b / (1 + exp d') <= b / (1 + exp d))%R.
Proof.
  intros Hb Hd. pose proof (exp_pos d) as He. pose proof (exp_pos d') as He'.
  assert (Hexp : (exp d <= exp d')%R).
  { destruct Hd as [Hlt|Heq];
      [left; apply exp_increasing; exact Hlt | rewrite Heq; lra]. }
  unfold Rdiv. apply Rmult_le_compat_l; [exact Hb|].
  apply Rinv_le_contravar; lra.
Qed.

(** For a non-negative amplitude every noiseless response lies between [0]
    and [beta_true], both included, and the response does not increase when
    the concentration grows. *)
Theorem response_bounded_decreasing :
  forall (beta c c' t : Z),
    (0 <= beta)%Z -> (c <= c')%Z ->
    (0 <= Generator.response beta c t <= IZR beta)%R /\
    (Generator.response beta c' t <= Generator.response beta c t)%R.
Proof.
  intros beta c c' t Hb Hc. unfold Generator.response.
  assert (Hb' : (0 <= IZR beta)%R) by (apply IZR_le; exact Hb).
  split.
  - destruct Hb' as [Hpos|Hz].
    + pose proof (logistic_between (IZR beta) (IZR (c - t)) Hpos). lra.
    + rewrite <- Hz. unfold Rdiv. rewrite Rmult_0_l. lra.
  - apply logistic_decreasing; [exact Hb'|]. apply IZR_le. lia.
Qed.

Lemma response_bounded_decreasing_witness :
  (0 <= Generator.response 1 40 42 <= IZR 1)%R /\
  (Generator.response 1 50 42 <= Generator.response 1 40 42)%R.
Proof. apply (response_bounded_decreasing 1 40 50 42); lia. Defined.

(** The response curve is symmetric about the half-maximal point: the
    responses at equal distances below and above the IC50 add up to
    [beta_true]. *)
Theorem response_symmetric :
  forall (beta t d : Z),
    (Generator.response beta (t + d) t + Generator.response beta (t - d) t
     = IZR beta)%R.
Proof.
  intros beta t d. unfold Generator.response.
  replace (t + d - t)%Z with d by lia.
  replace (t - d - t)%Z with (- d)%Z by lia.
  rewrite opp_IZR, exp_Ropp.
  pose proof (exp_pos (IZR d)) as He.
  field. split; lra.
Qed.

(** ** Bounds on the declared mean *)

(** At every parameter point the declared mean of an observation is no
    larger in absolute value than the amplitude of its drug, and for a
    non-negative amplitude it lies between [0] and that amplitude: the
    denominator [1 + exp(...)] exceeds [1], so the division is always
    defined. *)
Theorem declared_mean_bounded :
  forall (data : list IRow) (m : pm.Model) (p : pm.point),
    pm.model data = Ok m ->
    (forall rv, In rv (pm.free_RVs m) ->
                length (p (pm.name rv)) = pm.shape rv) ->
    exists mus,
      pm.eval p (pm.measurements data) = Ok (pm.Vector mus) /\
      length mus = length data /\
      forall i r mu,
        nth_error data i = Some r -> nth_error mus i = Some mu ->
        (Rabs mu <= Rabs (pm.index (p "beta") (idxs r)))%R /\
        ((0 <= pm.index (p "beta") (idxs r))%R ->
         (0 <= mu <= pm.index (p "beta") (idxs r))%R).
Proof.
  intros data m p Hm Hp.
  destruct (model_ok_inv data m Hm) as (Hv & -> & _).
  assert (Hb : length (p "beta") = pm.datasize data)
    by (apply (Hp (pm.beta data)); simpl; auto).
  assert (Hi : length (p "IC50") = pm.datasize data)
    by (apply (Hp (pm.ic50 data)); simpl; auto).
  eexists. split; [apply (eval_measurements data p Hv Hb Hi)|].
  split; [apply length_map|].
  intros i r mu Hr Hmu. rewrite nth_error_map, Hr in Hmu.
  injection Hmu as <-.
  set (b := pm.index (p "beta") (idxs r)).
  set (d := (concentrations (row r) - pm.index (p "IC50") (idxs r))%R).
  pose proof (exp_pos d) as He.
  assert (Hinv : (0 < / (1 + exp d) <= 1)%R).
  { split; [apply Rinv_0_lt_compat; lra|].
    rewrite <- Rinv_1. apply Rinv_le_contravar; lra. }
  split.
  - unfold Rdiv. rewrite Rabs_mult, (Rabs_pos_eq (/ (1 + exp d))) by lra.
    pose proof (Rabs_pos b). nra.
  - intros Hb0. unfold Rdiv. nra.
Qed.

Lemma declared_mean_bounded_witness :
  exists mus,
    pm.eval Examples.two_drug_point
            (pm.measurements (add_idxs Examples.drug_1_missing))
      = Ok (pm.Vector mus) /\
    length mus = 2.
Proof.
  destruct (declared_mean_bounded
              (add_idxs Examples.drug_1_missing)
              (pm.declared (add_idxs Examples.drug_1_missing))
              Examples.two_drug_point)
    as (mus & Hmu & Hl & _).
  - reflexivity.
  - intros rv [<-|[<-|[<-|[]]]]; reflexivity.
  - exists mus. split; [exact Hmu | exact Hl].
Defined.

(** ** The joint density of the observations *)

Lemma normal_pdf_nonneg (mu sd x : R) : (0 <= pm.normal_pdf mu sd x)%R.
Proof.
  unfold pm.normal_pdf. destruct (Rlt_dec 0 sd) as [Hs|Hs]; [|lra].
  apply Rmult_le_pos; [|left; apply exp_pos].
  left. apply Rinv_0_lt_compat. apply Rmult_lt_0_compat; [exact Hs|].
  apply sqrt_lt_R0. pose proof PI_RGT_0. lra.
Qed.

Lemma normal_pdf_pos (mu sd x : R) :
  (0 < sd)%R -> (0 < pm.normal_pdf mu sd x)%R.
Proof.
  intros Hs. unfold pm.normal_pdf.
  destruct (Rlt_dec 0 sd) as [_|N]; [|contradiction].
  apply Rmult_lt_0_compat; [|apply exp_pos].
  apply Rinv_0_lt_compat. apply Rmult_lt_0_compat; [exact Hs|].
  apply sqrt_lt_R0. pose proof PI_RGT_0. lra.
Qed.

Lemma normal_pdf_zero (mu sd x : R) :
  (sd <= 0)%R -> pm.normal_pdf mu sd x = 0%R.
Proof.
  intros Hs. unfold pm.normal_pdf.
  destruct (Rlt_dec 0 sd); [lra | reflexivity].
Qed.

Lemma prod_nonneg (l : list R) :
  (forall x, In x l -> (0 <= x)%R) -> (0 <= pm.prod l)%R.
Proof.
  induction l as [|a l IH]; intros H; simpl; [lra|].
  apply Rmult_le_pos; [apply H; left; reflexivity|].
  apply IH. intros x Hx. apply H. right. exact Hx.
Qed.

Lemma prod_pos (l : list R) :
  (forall x, In x l -> (0 < x)%R) -> (0 < pm.prod l)%R.
Proof.
  induction l as [|a l IH]; intros H; simpl; [lra|].
  apply Rmult_lt_0_compat; [apply H; left; reflexivity|].
  apply IH. intros x Hx. apply H. right. exact Hx.
Qed.

Lemma prod_zero (l : list R) : In 0%R l -> pm.prod l = 0%R.
Proof.
  induction l as [|a l IH]; intros H; simpl; [contradiction|].
  destruct H as [->|H]; [ring | rewrite (IH H); ring].
Qed.

Lemma prod_Permutation (l l' : list R) :
  Permutation l l' -> pm.prod l = pm.prod l'.
Proof.
  induction 1; simpl; try congruence; ring.
Qed.

(** The joint density of the observations is defined at every parameter
    point of the declared shapes and is never negative; it is positive when
    the noise scale of every observation's drug is positive, and zero as
    soon as one observation belongs to a drug whose noise scale is zero or
    negative. *)
Theorem joint_density_sign :
  forall (data : list IRow) (m : pm.Model) (p : pm.point),
    pm.model data = Ok m ->
    (forall rv, In rv (pm.free_RVs m) ->
                length (p (pm.name rv)) = pm.shape rv) ->
    exists d,
      pm.joint_density p (pm.y_like data) = Ok d /\
      (0 <= d)%R /\
      ((forall r, In r data -> (0 < pm.index (p "noise") (idxs r))%R) ->
       (0 < d)%R) /\
      ((exists r, In r data /\ (pm.index (p "noise") (idxs r) <= 0)%R) ->
       d = 0%R).
Proof.
  intros data m p Hm Hp.
  destruct (model_ok_inv data m Hm) as (Hv & -> & _).
  assert (Hb : length (p "beta") = pm.datasize data)
    by (apply (Hp (pm.beta data)); simpl; auto).
  assert (Hn : length (p "noise") = pm.datasize data)
    by (apply (Hp (pm.noise data)); simpl; auto).
  assert (Hi : length (p "IC50") = pm.datasize data)
    by (apply (Hp (pm.ic50 data)); simpl; auto).
  eexists. split.
  { unfold pm.joint_density.
    rewrite (densities_y_like data p Hv Hb Hn Hi). reflexivity. }
  split; [|split].
  - apply prod_nonneg. intros x Hx. apply in_map_iff in Hx.
    destruct Hx as (r & <- & _). apply normal_pdf_nonneg.
  - intros Hpos. apply prod_pos. intros x Hx. apply in_map_iff in Hx.
    destruct Hx as (r & <- & Hr). apply normal_pdf_pos, Hpos, Hr.
  - intros (r & Hr & Hle). apply prod_zero. apply in_map_iff.
    exists r. split; [apply normal_pdf_zero; exact Hle | exact Hr].
Qed.

Lemma joint_density_sign_witness :
  exists d,
    pm.joint_density Examples.two_drug_point
                     (pm.y_like (add_idxs Examples.drug_1_missing)) = Ok d /\
    (0 <= d)%R.
Proof.
  destruct (joint_density_sign
              (add_idxs Examples.drug_1_missing)
              (pm.declared (add_idxs Examples.drug_1_missing))
              Examples.two_drug_point)
    as (d & Hd & H0 & _).
  - reflexivity.
  - intros rv [<-|[<-|[<-|[]]]]; reflexivity.
  - exists d. split; [exact Hd | exact H0].
Defined.

(** ** The order of the rows *)

Lemma unique_Permutation (y y' : list Z) :
  Permutation y y' -> sklearn.unique y = sklearn.unique y'.
Proof.
  intros H. apply sorted_ext; try apply unique_sorted.
  intros v. rewrite !unique_In. split; apply Permutation_in;
    [exact H | symmetry; exact H].
Qed.

Lemma add_idxs_Permutation (data data' : list Row) :
  Permutation data data' -> Permutation (add_idxs data) (add_idxs data').
Proof.
  intros H. rewrite !add_idxs_map.
  rewrite <- (unique_Permutation (map drug data) (map drug data'))
    by (apply Permutation_map; exact H).
  apply Permutation_map. exact H.
Qed.

Lemma length_nodup_Permutation (l l' : list Z) :
  Permutation l l' ->
  length (nodup Z.eq_dec l) = length (nodup Z.eq_dec l').
Proof.
  intros H. apply Permutation_length, NoDup_Permutation;
    try apply NoDup_nodup.
  intros v. rewrite !nodup_In. split; apply Permutation_in;
    [exact H | symmetry; exact H].
Qed.

Lemma datasize_Permutation (data data' : list IRow) :
  Permutation data data' -> pm.datasize data = pm.datasize data'.
Proof.
  intros H. unfold pm.datasize. apply length_nodup_Permutation.
  unfold col_idxs. apply Permutation_map. exact H.
Qed.

(** The order of the rows does not matter: reordering the rows of a frame
    before the [idxs] column is added changes neither the index given to a
    row, nor [datasize], nor the joint density of the observations at any
    parameter point. *)
Theorem joint_density_row_order :
  forall (data data' : list Row) (p : pm.point),
    Permutation data data' ->
    length (p "beta") = pm.datasize (add_idxs data) ->
    length (p "noise") = pm.datasize (add_idxs data) ->
    length (p "IC50") = pm.datasize (add_idxs data) ->
    Permutation (add_idxs data) (add_idxs data') /\
    pm.datasize (add_idxs data') = pm.datasize (add_idxs data) /\
    exists d,
      pm.joint_density p (pm.y_like (add_idxs data)) = Ok d /\
      pm.joint_density p (pm.y_like (add_idxs data')) = Ok d.
Proof.
  intros data data' p H Hb Hn Hi.
  pose proof (add_idxs_Permutation data data' H) as HP.
  pose proof (datasize_Permutation _ _ HP) as HD.
  split; [exact HP|]. split; [symmetry; exact HD|].
  eexists. split.
  - unfold pm.joint_density.
    rewrite (densities_y_like (add_idxs data) p (idxs_valid data) Hb Hn Hi).
    reflexivity.
  - unfold pm.joint_density.
    rewrite HD in Hb, Hn, Hi.
    rewrite (densities_y_like (add_idxs data') p (idxs_valid data') Hb Hn Hi).
    cbn [bind]. f_equal. apply prod_Permutation.
    apply Permutation_map. symmetry. exact HP.
Qed.

Lemma joint_density_row_order_witness :
  exists d,
    pm.joint_density Examples.two_drug_point
      (pm.y_like (add_idxs Examples.drug_1_missing)) = Ok d /\
    pm.joint_density Examples.two_drug_point
      (pm.y_like (add_idxs (rev Examples.drug_1_missing))) = Ok d.
Proof.
  destruct (joint_density_row_order
              Examples.drug_1_missing (rev Examples.drug_1_missing)
              Examples.two_drug_point)
    as (_ & _ & H).
  - apply perm_swap.
  - reflexivity.
  - reflexivity.
  - reflexivity.
  - exact H.
Defined.

(** ** Failure of the declaration *)

Lemma forallb_false_exists {A} (f : A -> bool) (l : list A) :
  forallb f l = false -> exists x, In x l /\ f x = false.
Proof.
  induction l as [|a l IH]; simpl; [discriminate|].
  destruct (f a) eqn:E; simpl.
  - intros H. destruct (IH H) as (x & Hx & Hf). exists x. tauto.
  - intros _. exists a. tauto.
Qed.

Lemma valid_index_spec (n : nat) (i : Z) :
  pm.valid_index n i = true <-> (- Z.of_nat n <= i < Z.of_nat n)%Z.
Proof.
  unfold pm.valid_index. rewrite andb_true_iff, Z.leb_le, Z.ltb_lt. tauto.
Qed.

(** On a frame that carries its own [idxs] column, the declaration succeeds
    exactly when the frame has rows and every index [i] satisfies
    [-datasize <= i < datasize]; it raises ValueError exactly when the frame
    has no rows, IndexError exactly when the frame has rows and some row's
    index is outside that range, and nothing else.  Indices that skip a
    value, such as 0 and 2 alone, are therefore refused: they need the label
    encoder first. *)
Theorem declaration_index_error :
  forall data : list IRow,
    (pm.model data = Ok (pm.declared data) <->
     data <> [] /\
     forall r, In r data ->
       (- Z.of_nat (pm.datasize data) <= idxs r
        < Z.of_nat (pm.datasize data))%Z) /\
    (pm.model data = Error "IndexError" <->
     data <> [] /\
     exists r, In r data /\
       ~ (- Z.of_nat (pm.datasize data) <= idxs r
          < Z.of_nat (pm.datasize data))%Z) /\
    (pm.model data = Error "ValueError" <-> data = []) /\
    (forall e, pm.model data = Error e ->
               e = "IndexError" \/ e = "ValueError") /\
    (forall m, pm.model data = Ok m -> m = pm.declared data).
Proof.
  intros data. rewrite model_spec.
  destruct (Nat.eqb_spec (pm.datasize data) 0) as [E0|E0].
  { apply datasize_zero in E0. subst data.
    split; [split; [discriminate | intros [H _]; congruence]|].
    split; [split; [discriminate | intros [H _]; congruence]|].
    split; [tauto|]. split; [|discriminate].
    intros e [= <-]. right. reflexivity. }
  assert (Hne : data <> [])
    by (intros ->; apply E0; reflexivity).
  destruct (forallb (pm.valid_index (pm.datasize data)) (col_idxs data))
    eqn:Hv.
  - assert (Hall : forall r, In r data ->
              (- Z.of_nat (pm.datasize data) <= idxs r
               < Z.of_nat (pm.datasize data))%Z).
    { intros r Hr. apply valid_index_spec.
      rewrite forallb_forall in Hv. apply Hv.
      unfold col_idxs. apply in_map. exact Hr. }
    split; [tauto|]. split; [|split; [|split]].
    + split; [discriminate|]. intros (_ & r & Hr & Hbad). elim Hbad. auto.
    + split; [discriminate | congruence].
    + discriminate.
    + intros m [= <-]. reflexivity.
  - apply forallb_false_exists in Hv. destruct Hv as (i & Hi & Hf).
    unfold col_idxs in Hi. apply in_map_iff in Hi.
    destruct Hi as (r & <- & Hr).
    assert (Hbad : ~ (- Z.of_nat (pm.datasize data) <= idxs r
                      < Z.of_nat (pm.datasize data))%Z).
    { intros H. apply valid_index_spec in H. congruence. }
    split; [|split; [|split; [|split]]].
    + split; [discriminate|]. intros [_ H]. elim Hbad. auto.
    + split; [|reflexivity]. intros _. split; [exact Hne|].
      exists r. tauto.
    + split; [discriminate | congruence].
    + intros e [= <-]. left. reflexivity.
    + discriminate.
Qed.

(** ** Discarding the burn-in *)

(** Whatever the sampler returns, the trace is its first 5,000 draws
    followed by what the summary and the trace plot receive, which are the
    same list; a trace of 5,000 draws or fewer leaves them an empty list
    rather than an error. *)
Theorem burn_in_split :
  forall (sample : pm.Model -> Inference.sample_args -> list pm.point)
         (m : pm.Model),
    Inference.trace sample m
      = (firstn (Z.to_nat 5000) (Inference.trace sample m)
         ++ Inference.summary_input sample m)%list /\
    Inference.traceplot_input sample m = Inference.summary_input sample m /\
    length (Inference.summary_input sample m)
      = length (Inference.trace sample m) - Z.to_nat 5000 /\
    (length (Inference.trace sample m) <= Z.to_nat 5000 ->
     Inference.summary_input sample m = []).
Proof.
  intros sample m.
  assert (S5 : Inference.summary_input sample m
               = skipn (Z.to_nat 5000) (Inference.trace sample m))
    by reflexivity.
  split; [rewrite S5; symmetry; apply firstn_skipn|].
  split; [reflexivity|].
  split; [rewrite S5; apply length_skipn|].
  intros Hle. rewrite S5. apply skipn_all2. exact Hle.
Qed.

(** ** Shape checking and evaluation *)

Lemma lift2_shape (f : R -> R -> R) (x y : pm.value) (s : option nat) :
  pm.broadcast (value_shape x) (value_shape y) = Ok s ->
  exists v, pm.lift2 f x y = Ok v /\ value_shape v = s.
Proof.
  destruct x as [a|u]; destruct y as [b|w]; simpl.
  - intros [= <-]. eexists; split; reflexivity.
  - intros [= <-]. eexists; split; [reflexivity|].
    simpl. rewrite length_map. reflexivity.
  - intros [= <-]. eexists; split; [reflexivity|].
    simpl. rewrite length_map. reflexivity.
  - destruct (Nat.eqb_spec (length u) (length w)) as [E|E]; [|discriminate].
    intros [= <-]. eexists; split; [reflexivity|].
    simpl. rewrite length_map, length_combine, E, Nat.min_id. reflexivity.
Qed.

(** The shape check is sound for every expression of the tensor language:
    when it accepts an expression, evaluating the expression at any point
    whose vectors have the declared lengths raises nothing and yields a value
    of the shape the check computed. *)
Theorem check_sound :
  forall (rvs : list pm.FreeRV) (p : pm.point) (t : pm.tensor)
         (s : option nat),
    (forall nm n, pm.lookup_shape nm rvs = Some n -> length (p nm) = n) ->
    pm.check rvs t = Ok s ->
    exists v, pm.eval p t = Ok v /\ value_shape v = s.
Proof.
  intros rvs p t; induction t as
    [z | a | nm | x IHx ix | a IHa b IHb | a IHa b IHb | a IHa b IHb | a IHa];
    intros s Hp Hc; cbn [pm.check pm.eval] in *.
  - injection Hc as <-. eexists; split; reflexivity.
  - injection Hc as <-. eexists; split; reflexivity.
  - destruct (pm.lookup_shape nm rvs) as [n|] eqn:El; [|discriminate].
    injection Hc as <-. eexists; split; [reflexivity|].
    simpl. f_equal. apply Hp. exact El.
  - destruct (pm.check rvs x) as [sx|] eqn:Ex; [|discriminate].
    cbn [bind] in Hc. destruct sx as [n|]; [|discriminate].
    destruct (forallb (pm.valid_index n) ix) eqn:Ev; [|discriminate].
    injection Hc as <-.
    destruct (IHx (Some n) Hp eq_refl) as (v & Hv & Hs). rewrite Hv.
    destruct v as [r|l]; [discriminate|]. simpl in Hs. injection Hs as Hl.
    cbn [bind]. unfold pm.take. rewrite Hl, Ev. cbn [bind].
    eexists; split; [reflexivity|]. simpl. rewrite length_map. reflexivity.
  - destruct (pm.check rvs a) as [sa|] eqn:Ea; [|discriminate].
    destruct (pm.check rvs b) as [sb|] eqn:Eb; [|discriminate].
    cbn [bind] in Hc.
    destruct (IHa sa Hp eq_refl) as (va & Hva & Hsa).
    destruct (IHb sb Hp eq_refl) as (vb & Hvb & Hsb).
    rewrite Hva, Hvb. cbn [bind]. apply lift2_shape. rewrite Hsa, Hsb.
    exact Hc.
  - destruct (pm.check rvs a) as [sa|] eqn:Ea; [|discriminate].
    destruct (pm.check rvs b) as [sb|] eqn:Eb; [|discriminate].
    cbn [bind] in Hc.
    destruct (IHa sa Hp eq_refl) as (va & Hva & Hsa).
    destruct (IHb sb Hp eq_refl) as (vb & Hvb & Hsb).
    rewrite Hva, Hvb. cbn [bind]. apply lift2_shape. rewrite Hsa, Hsb.
    exact Hc.
  - destruct (pm.check rvs a) as [sa|] eqn:Ea; [|discriminate].
    destruct (pm.check rvs b) as [sb|] eqn:Eb; [|discriminate].
    cbn [bind] in Hc.
    destruct (IHa sa Hp eq_refl) as (va & Hva & Hsa).
    destruct (IHb sb Hp eq_refl) as (vb & Hvb & Hsb).
    rewrite Hva, Hvb. cbn [bind]. apply lift2_shape. rewrite Hsa, Hsb.
    exact Hc.
  - destruct (IHa s Hp Hc) as (v & Hv & Hs). rewrite Hv. cbn [bind].
    destruct v as [r|l]; eexists; (split; [reflexivity|]); [exact Hs|].
    simpl in *. rewrite length_map. exact Hs.
Qed.

Lemma check_sound_witness :
  exists v,
    pm.eval Examples.two_drug_point
            (pm.measurements (add_idxs Examples.drug_1_missing)) = Ok v /\
    value_shape v = Some 2.
Proof.
  apply (check_sound
           [pm.beta (add_idxs Examples.drug_1_missing);
            pm.noise (add_idxs Examples.drug_1_missing);
            pm.ic50 (add_idxs Examples.drug_1_missing)]).
  - intros nm n. cbn [pm.lookup_shape pm.name pm.shape pm.beta pm.noise
                      pm.ic50].
    destruct (String.eqb_spec nm "beta") as [->|_];
      [intros [= <-]; reflexivity|].
    destruct (String.eqb_spec nm "noise") as [->|_];
      [intros [= <-]; reflexivity|].
    destruct (String.eqb_spec nm "IC50") as [->|_];
      [intros [= <-]; reflexivity | discriminate].
  - reflexivity.
Defined.

(** ** Support of the priors *)

Lemma halfcauchy_pdf_pos (b x : R) :
  (0 < b)%R -> (0 <= x)%R -> (0 < pm.halfcauchy_pdf b x)%R.
Proof.
  intros Hb Hx. unfold pm.halfcauchy_pdf.
  destruct (Rlt_dec 0 b); [|contradiction].
  destruct (Rle_dec 0 x); [|contradiction].
  apply Rdiv_lt_0_compat; [lra|].
  pose proof PI_RGT_0. pose proof (pow2_ge_0 (x / b)).
  apply Rmult_lt_0_compat; [apply Rmult_lt_0_compat; assumption | lra].
Qed.

(** The declared priors exclude nothing but negative noise: every real
    value of an amplitude or of an IC50 has positive prior density, every
    non-negative noise scale has positive prior density, and a negative
    noise scale has prior density zero. *)
Theorem prior_support :
  forall (data : list IRow) (m : pm.Model) (rv : pm.FreeRV)
         (p : pm.point) (x : R),
    pm.model data = Ok m ->
    In rv (pm.free_RVs m) ->
    exists d,
      pm.densities p (pm.prior rv) [x] = Ok [d] /\
      (pm.name rv <> "noise" -> (0 < d)%R) /\
      (pm.name rv = "noise" ->
       ((0 <= x)%R -> (0 < d)%R) /\ ((x < 0)%R -> d = 0%R)).
Proof.
  intros data m rv p x Hm Hrv.
  destruct (model_ok_inv data m Hm) as (_ & -> & _).
  assert (H10 : (0 < IZR (100 ^ 2))%R) by (apply IZR_lt; reflexivity).
  destruct Hrv as [<-|[<-|[<-|[]]]]; cbn [pm.prior pm.name pm.beta pm.noise
    pm.ic50 pm.Normal_default_mu].
  - rewrite densities_normal_const. eexists. split; [reflexivity|].
    split; [intros _; apply normal_pdf_pos; exact H10 | discriminate].
  - rewrite densities_halfcauchy_const. eexists. split; [reflexivity|].
    split; [congruence|]. intros _. split.
    + intros Hx. apply halfcauchy_pdf_pos; assumption.
    + apply halfcauchy_pdf_negative.
  - unfold pm.Normal_default_mu.
    rewrite densities_normal_const. eexists. split; [reflexivity|].
    split; [intros _; apply normal_pdf_pos; exact H10 | discriminate].
Qed.

Lemma prior_support_witness :
  exists d,
    pm.densities Examples.two_drug_point
      (pm.prior (pm.noise (add_idxs Examples.drug_1_missing))) [(-1)%R]
    = Ok [d] /\ d = 0%R.
Proof.
  destruct (prior_support
              (add_idxs Examples.drug_1_missing)
              (pm.declared (add_idxs Examples.drug_1_missing))
              (pm.noise (add_idxs Examples.drug_1_missing))
              Examples.two_drug_point (-1)%R)
    as (d & Hd & _ & Hn).
  - reflexivity.
  - right. left. reflexivity.
  - exists d. split; [exact Hd|]. apply Hn; [reflexivity | lra].
Defined.

(** ** The notebook from the first cell to the declared model *)

Lemma index_of_drug (grid ic50s : list Z) (v : Z) :
  In v (Generator.drugs grid ic50s) ->
  sklearn.index_of v (sklearn.unique (Generator.drugs grid ic50s)) = v.
Proof.
  intros Hin.
  pose proof (fit_transform_drugs grid ic50s) as Hft.
  unfold sklearn.fit_transform in Hft.
  apply In_nth_error in Hin. destruct Hin as (i & Hi).
  pose proof (f_equal (fun l => nth_error l i) Hft) as Hn.
  cbn beta in Hn. rewrite nth_error_map, Hi in Hn.
  injection Hn as Hn. exact Hn.
Qed.

Lemma data_ok (grid ic50s : list Z) (beta : Z) (z : nat -> nat -> R) :
  exists rows, Generator.data grid ic50s beta z = Ok rows.
Proof.
  destruct (from_columns_ok
              (map IZR (Generator.concentrations_col grid ic50s))
              (np.flatten_F (Generator.y_noisy grid ic50s beta z))
              (Generator.drugs grid ic50s))
    as (rows & E & _).
  { rewrite length_map, length_flatten_y_noisy, length_concentrations_col.
    reflexivity. }
  { rewrite length_map, length_drugs, length_concentrations_col.
    reflexivity. }
  exists rows. exact E.
Qed.

(** Whatever noise is drawn, the notebook's cells from data generation to
    model declaration raise nothing: the frame has 144 rows whose indices
    are the drug labels 0, 1 and 2, and the declared model has three
    components per parameter vector and 144 observed values. *)
Theorem notebook_declares_model :
  forall z : nat -> nat -> R,
  exists d,
    notebook_data z = Ok d /\
    notebook_model z = Ok (pm.declared d) /\
    length d = 144 /\
    pm.datasize d = 3 /\
    (forall r, In r d -> idxs r = drug (row r) /\ (0 <= idxs r < 3)%Z) /\
    length (pm.observed (pm.y_like d)) = 144.
Proof.
  intros z.
  destruct (data_ok Generator.x_concs Generator.ic50_true
              Generator.beta_true z) as (rows & E).
  assert (Hk : (Z.of_nat (length Generator.ic50_true) <= 2 ^ 31)%Z)
    by (simpl; lia).
  destruct (data_columns _ _ _ _ _ E) as (_ & _ & Hd & Hl).
  pose proof (generated_col_idxs _ _ _ _ _ E Hk) as Hix.
  assert (Hlen : length (add_idxs rows) = 144).
  { rewrite <- (length_map row), map_row_add_idxs, Hl. reflexivity. }
  exists (add_idxs rows).
  split; [unfold notebook_data; rewrite E; reflexivity|].
  split; [unfold notebook_model, notebook_data; rewrite E; cbn [bind];
          apply model_add_idxs; intros ->; discriminate Hl|].
  split; [exact Hlen|].
  split; [apply (generated_datasize _ _ _ _ _ E Hk); discriminate|].
  split.
  - intros r Hr. rewrite add_idxs_map in Hr. apply in_map_iff in Hr.
    destruct Hr as (x & <- & Hx). cbn [row idxs].
    assert (Hin : In (drug x) (Generator.drugs Generator.x_concs
                                 Generator.ic50_true))
      by (rewrite <- Hd; apply in_map; exact Hx).
    pose proof (proj1 (In_drugs _ _ _) Hin) as [_ Hr].
    change (Z.of_nat (length Generator.ic50_true)) with 3%Z in Hr.
    rewrite Hd, (index_of_drug _ _ _ Hin), astype_int32_small by lia.
    split; [reflexivity | exact Hr].
  - cbn [pm.observed pm.y_like]. unfold col_measurements.
    rewrite length_map. exact Hlen.
Qed.
